(** * Matchup segmentation of ESPN play-by-play text

    A shallow embedding of [parse_play_by_play] (txt_to_json4.py) and of the
    helpers nested in it, followed by the properties of the segmenter.

    Conventions of the embedding.
    - A Python [str] is a [string]; a character is its code point, and the
      texts considered stay in the Latin-1 range (code points below 256).
    - Python lists are [list]; the dictionaries with fixed keys are records.
    - An exception is a value of [exn] carried by [result]; the statements of
      the segmenter are sequenced with the bind of that error monad.
    - The closure variables [matchups], [current_matchup] and [last_time] of
      [parse_play_by_play] form the record [state], threaded explicitly.
    - The module-level lineups are the initial rosters; the loop is written
      over arbitrary initial rosters and [parse_play_by_play] instantiates
      them with [team1_lineup] and [team2_lineup]. *)

From Stdlib Require Import ZArith List Bool Ascii String Lia.
From Stdlib Require Import QArith Qround DecimalString.
Import ListNotations.

Local Open Scope string_scope.
Local Open Scope Z_scope.

(** ** Exceptions and the error monad *)

Inductive exn : Type :=
| IndexError
| ValueError.

Inductive result (A : Type) : Type :=
| Ok (a : A)
| Raise (e : exn).

Arguments Ok {A} a.
Arguments Raise {A} e.

Definition bind {A B : Type} (r : result A) (k : A -> result B) : result B :=
  match r with
  | Ok a => k a
  | Raise e => Raise e
  end.

Notation "x <- r ;; k" := (bind r (fun x => k))
  (at level 61, r at next level, right associativity).
Notation "' p <- r ;; k" := (bind r (fun v => let p := v in k))
  (at level 61, p pattern, r at next level, right associativity).

(** ** Strings as Python uses them *)

Module Py.

(** [sub in s] for two strings. *)
Fixpoint contains (sub s : string) : bool :=
  String.prefix sub s
  || match s with
     | EmptyString => false
     | String _ s' => contains sub s'
     end.

(** Puts [c] in front of the first piece of a list of pieces. *)
Definition cons_hd (c : ascii) (ps : list string) : list string :=
  match ps with
  | [] => [String c ""]
  | p :: ps' => String c p :: ps'
  end.

(** [s.split(sep)] for a non-empty [sep]: the pieces between the
    non-overlapping occurrences of [sep], found from the left. [skip] counts
    the characters of an occurrence that are still to be passed over. *)
Fixpoint split_go (sep : string) (skip : nat) (s : string) : list string :=
  match skip with
  | S k =>
      match s with
      | EmptyString => [""]
      | String _ s' => split_go sep k s'
      end
  | O =>
      match s with
      | EmptyString => [""]
      | String c s' =>
          if String.prefix sep s
          then "" :: split_go sep (Nat.pred (String.length sep)) s'
          else cons_hd c (split_go sep O s')
      end
  end.

Definition split (sep s : string) : list string := split_go sep O s.

(** [l[i]]: IndexError out of range. *)
Definition index {A : Type} (l : list A) (i : nat) : result A :=
  match nth_error l i with
  | Some a => Ok a
  | None => Raise IndexError
  end.

(** [str.isspace] on one character of the Latin-1 range. *)
Definition is_space (c : ascii) : bool :=
  let n := nat_of_ascii c in
  ((9 <=? n) && (n <=? 13) || (28 <=? n) && (n <=? 32)
   || (n =? 133) || (n =? 160))%nat.

Fixpoint lstrip (s : string) : string :=
  match s with
  | EmptyString => ""
  | String c s' => if is_space c then lstrip s' else s
  end.

Fixpoint rstrip (s : string) : string :=
  match s with
  | EmptyString => ""
  | String c s' =>
      match rstrip s' with
      | EmptyString => if is_space c then "" else String c ""
      | r => String c r
      end
  end.

(** [s.strip()]. *)
Definition strip (s : string) : string := rstrip (lstrip s).

(** The regular-expression class [\d] on the Latin-1 range. *)
Definition is_digit (c : ascii) : bool :=
  let n := nat_of_ascii c in ((48 <=? n) && (n <=? 57))%nat.

Definition digit_val (c : ascii) : Z := Z.of_nat (nat_of_ascii c) - 48.

(** [int(s)] on a string of decimal digits, the only strings the segmenter
    passes to it; anything else is a ValueError here. *)
Fixpoint int_go (acc : Z) (s : string) : result Z :=
  match s with
  | EmptyString => Ok acc
  | String c s' =>
      if is_digit c then int_go (10 * acc + digit_val c) s'
      else Raise ValueError
  end.

Definition int (s : string) : result Z :=
  match s with
  | EmptyString => Raise ValueError
  | _ => int_go 0 s
  end.

(** [str(z)] for an integer. *)
Definition str (z : Z) : string := NilZero.string_of_int (Z.to_int z).

(** The format [{z:02}]: the decimal digits, zero-padded to width 2. *)
Definition format_02 (z : Z) : string :=
  let s := str z in
  if (String.length s <? 2)%nat then "0" ++ s else s.

(** [x in l] for a list of strings. *)
Definition mem (x : string) (l : list string) : bool :=
  existsb (String.eqb x) l.

(** [l.remove(x)]: drops the first occurrence, ValueError when there is
    none. *)
Fixpoint remove (x : string) (l : list string) : result (list string) :=
  match l with
  | [] => Raise ValueError
  | y :: l' =>
      if String.eqb y x then Ok l'
      else l'' <- remove x l' ;; Ok (y :: l'')
  end.

End Py.

(** ** The two regular expressions *)

Module Re.

Definition eat_digit (s : string) : option (ascii * string) :=
  match s with
  | String c r => if Py.is_digit c then Some (c, r) else None
  | EmptyString => None
  end.

Definition eat_char (x : ascii) (s : string) : option string :=
  match s with
  | String c r => if Ascii.eqb c x then Some r else None
  | EmptyString => None
  end.

Definition obind {A B : Type} (o : option A) (k : A -> option B) : option B :=
  match o with
  | Some a => k a
  | None => None
  end.

(** [\d{2}] when [two], [\d{1}] otherwise, anchored at the head of [s]: the
    digits read and the rest of the subject. *)
Definition lead (two : bool) (s : string) : option (string * string) :=
  obind (eat_digit s) (fun '(a, r1) =>
  if two
  then obind (eat_digit r1) (fun '(b, r2) => Some (String a (String b ""), r2))
  else Some (String a "", r1)).

Definition mm_ss (two : bool) (s : string) : option string :=
  obind (lead two s) (fun '(m, r) =>
  obind (eat_char ":" r) (fun r1 =>
  obind (eat_digit r1) (fun '(c, r2) =>
  obind (eat_digit r2) (fun '(d, _) =>
  Some (m ++ String ":" (String c (String d ""))))))).

Definition ss_s (two : bool) (s : string) : option string :=
  obind (lead two s) (fun '(m, r) =>
  obind (eat_char "." r) (fun r1 =>
  obind (eat_digit r1) (fun '(c, _) =>
  Some (m ++ String "." (String c ""))))).

Definition orelse {A : Type} (o : option A) (o' : option A) : option A :=
  match o with
  | Some a => Some a
  | None => o'
  end.

(** [(\d{1,2}:\d{2}|\d{1,2}\.\d)] anchored at the head of [s]: the first
    alternative before the second, and within each the greedy two-digit
    reading of [\d{1,2}] before the one-digit reading. *)
Definition time_at (s : string) : option string :=
  orelse (mm_ss true s)
    (orelse (mm_ss false s)
       (orelse (ss_s true s) (ss_s false s))).

(** [re.search(r"(\d{1,2}:\d{2}|\d{1,2}\.\d)", line)], group 1 of the
    leftmost match. *)
Fixpoint search_time (s : string) : option string :=
  match time_at s with
  | Some t => Some t
  | None =>
      match s with
      | EmptyString => None
      | String _ r => search_time r
      end
  end.

(** The end of the subject for [$]: the very end, or just before a final
    newline. *)
Definition at_end (s : string) : bool :=
  match s with
  | EmptyString => true
  | String c EmptyString => Ascii.eqb c "010"
  | _ => false
  end.

(** [re.match(r"^\d{1,2}\.\d$", s)]: integer digits and tenths digit of the
    match. *)
Definition match_decimal (s : string) : option (string * ascii) :=
  let try two :=
    obind (lead two s) (fun '(m, r) =>
    obind (eat_char "." r) (fun r1 =>
    obind (eat_digit r1) (fun '(c, r2) =>
    if at_end r2 then Some (m, c) else None))) in
  orelse (try true) (try false).

End Re.

(** ** The segmenter *)

Definition newline : string := String "010" "".

Definition team1_lineup : list string :=
  ["Luka Doncic"; "Kyrie Irving"; "Daniel Gafford"; "P.J. Washington";
   "Derrick Jones Jr."].

Definition team2_lineup : list string :=
  ["Jayson Tatum"; "Jaylen Brown"; "Jrue Holiday"; "Derrick White";
   "Al Horford"].

Record players_t : Type := mkPlayers {
  team1 : list string;
  team2 : list string
}.

Record matchup : Type := mkMatchup {
  players : players_t;
  events : list string;
  matchup_duration : Z
}.

(** The variables [parse_play_by_play] shares with its nested functions. *)
Record state : Type := mkState {
  matchups : list matchup;
  current_matchup : matchup;
  last_time : string
}.

(** A float whose decimal text has one fractional digit, as the exact
    rational. For the values read here (below 100, one decimal) the binary64
    rounding of [float] never reaches an integer, and [//] and [%] by 60 are
    computed without rounding error on them, so the truncations below are
    those of the exact value. *)
Definition float (int_digits : string) (tenth : ascii) : result Q :=
  n <- Py.int int_digits ;;
  Ok (Qmake (10 * n + Py.digit_val tenth) 10).

(** [x // 60] and [x % 60] on floats. *)
Definition floordiv60 (x : Q) : Q := inject_Z (Qfloor (x / 60)).
Definition mod60 (x : Q) : Q := x - 60 * inject_Z (Qfloor (x / 60)).

(** [int(x)] on a float: truncation towards zero. *)
Definition int_of_float (x : Q) : Z :=
  if Qle_bool 0 x then Qfloor x else Qceiling x.

Definition convert_to_mm_ss_format (time_str : string) : result string :=
  match Re.match_decimal time_str with
  | Some (ds, t) =>
      seconds <- float ds t ;;
      let minutes := int_of_float (floordiv60 seconds) in
      let seconds := int_of_float (mod60 seconds) in
      Ok (Py.format_02 minutes ++ ":" ++ Py.format_02 seconds)
  | None => Ok time_str
  end.

Definition finalize_matchup (st : state) : state :=
  match events (current_matchup st) with
  | [] => st
  | _ :: _ =>
      mkState (matchups st ++ [current_matchup st])
              (current_matchup st) (last_time st)
  end.

(** [a, b = map(int, s.split(":"))]. *)
Definition unpack_clock (s : string) : result (Z * Z) :=
  match Py.split ":" s with
  | [a; b] =>
      m <- Py.int a ;;
      sec <- Py.int b ;;
      Ok (m, sec)
  | _ => Raise ValueError
  end.

Definition add_duration (m : matchup) (d : Z) : matchup :=
  mkMatchup (players m) (events m) (matchup_duration m + d).

Definition add_time_to_duration (current_time : string) (st : state)
  : result state :=
  current_time <- convert_to_mm_ss_format current_time ;;
  '(start_minutes, start_seconds) <- unpack_clock (last_time st) ;;
  '(end_minutes, end_seconds) <- unpack_clock current_time ;;
  let duration :=
    (start_minutes * 60 + start_seconds) - (end_minutes * 60 + end_seconds) in
  let duration := if duration <? 0 then duration + 720 else duration in
  Ok (mkState (matchups st)
              (add_duration (current_matchup st) duration)
              current_time).

Definition marker : string := "enters the game for".
Definition spaced_marker : string := " enters the game for ".
Definition dash : string := " - ".

(** The loop over ["team1"], ["team2"] with its [break]. *)
Definition substitute (entering exiting : string) (p : players_t)
  : result players_t :=
  if Py.mem exiting (team1 p) then
    l <- Py.remove exiting (team1 p) ;;
    Ok (mkPlayers (l ++ [entering]) (team2 p))
  else if Py.mem exiting (team2 p) then
    l <- Py.remove exiting (team2 p) ;;
    Ok (mkPlayers (team1 p) (l ++ [entering]))
  else Ok p.

(** The body of [if "enters the game for" in line]. *)
Definition handle_substitution (line : string) (st : state) : result state :=
  let st := finalize_matchup st in
  let fresh :=
    mkMatchup (mkPlayers (team1 (players (current_matchup st)))
                         (team2 (players (current_matchup st))))
              [line] 0 in
  let parts := Py.split spaced_marker line in
  part0 <- Py.index parts 0 ;;
  entering_player <- Py.index (Py.split dash part0) 1 ;;
  exiting_player <- Py.index parts 1 ;;
  p <- substitute entering_player exiting_player (players fresh) ;;
  Ok (mkState (matchups st)
              (mkMatchup p (events fresh) (matchup_duration fresh))
              (last_time st)).

Definition append_event (line : string) (st : state) : state :=
  mkState (matchups st)
          (mkMatchup (players (current_matchup st))
                     (events (current_matchup st) ++ [line])
                     (matchup_duration (current_matchup st)))
          (last_time st).

(** The statement [if time_match: ...] of the loop body. *)
Definition clock_phase (line : string) (st : state) : result state :=
  match Re.search_time line with
  | Some current_time => add_time_to_duration current_time st
  | None => Ok st
  end.

(** The statement [if "enters the game for" in line: ...]. *)
Definition subst_phase (line : string) (st : state) : result state :=
  if Py.contains marker line then handle_substitution line st else Ok st.

(** One iteration of [for i, line in enumerate(lines)]. *)
Definition step (st : state) (line : string) : result state :=
  st <- clock_phase line st ;;
  st <- subst_phase line st ;;
  Ok (append_event line st).

Fixpoint loop (st : state) (lines : list string) : result state :=
  match lines with
  | [] => Ok st
  | line :: rest => st' <- step st line ;; loop st' rest
  end.

Definition init (t1 t2 : list string) : state :=
  mkState [] (mkMatchup (mkPlayers t1 t2) [] 0) "12:00".

(** The loop and the last [finalize_matchup], from given starting rosters. *)
Definition segment (t1 t2 : list string) (lines : list string)
  : result (list matchup) :=
  st <- loop (init t1 t2) lines ;;
  Ok (matchups (finalize_matchup st)).

Definition parse_play_by_play (play_by_play_text : string)
  : result (list matchup) :=
  let lines := Py.split newline (Py.strip play_by_play_text) in
  segment team1_lineup team2_lineup lines.

(** The text that has the given lines, one per line. *)
Definition unlines (ls : list string) : string := String.concat newline ls.

(** ** Vocabulary of the statements *)

(** The text of [s] before the first occurrence of [sep] (all of [s] when
    there is none). *)
Fixpoint before (sep s : string) : string :=
  match s with
  | EmptyString => ""
  | String c s' => if String.prefix sep s then "" else String c (before sep s')
  end.

(** A line the substitution branch can take apart: it is no substitution
    line, or it has the marker between spaces and a [" - "] in front of it. *)
Definition sub_ok (line : string) : bool :=
  negb (Py.contains marker line)
  || Py.contains spaced_marker line
     && Py.contains dash (before spaced_marker line).

(** The clock [mm:ss] in seconds. *)
Definition secs_of (clock : string) : Z :=
  match unpack_clock clock with
  | Ok (m, s) => m * 60 + s
  | Raise _ => 0
  end.

Definition clock_ok (clock : string) : bool :=
  match unpack_clock clock with
  | Ok (m, s) => (0 <=? m) && (0 <=? s)
  | Raise _ => false
  end.

Definition token_ok (tok : string) : bool :=
  match convert_to_mm_ss_format tok with
  | Ok t => clock_ok t
  | Raise _ => false
  end.

(** The clock a line shows, in seconds, when it shows one. *)
Definition reading (line : string) : option Z :=
  match Re.search_time line with
  | Some tok =>
      match convert_to_mm_ss_format tok with
      | Ok t => Some (secs_of t)
      | Raise _ => None
      end
  | None => None
  end.

(** The end-of-quarter adjustment of [add_time_to_duration]. *)
Definition adjust (duration : Z) : Z :=
  if duration <? 0 then duration + 720 else duration.

(** How many times the test [duration < 0] of [add_time_to_duration] holds
    along [lines], the clock standing at [last] seconds before them. *)
Fixpoint rollovers (last : Z) (lines : list string) : Z :=
  match lines with
  | [] => 0
  | l :: rest =>
      match reading l with
      | Some t => (if last - t <? 0 then 1 else 0) + rollovers t rest
      | None => rollovers last rest
      end
  end.

(** The periods a line sequence runs through: the one it starts in and one
    more for each rollover of the clock. *)
Definition periods_represented (lines : list string) : Z :=
  1 + rollovers 720 lines.

Definition sum_durations (ms : list matchup) : Z :=
  fold_right (fun m acc => matchup_duration m + acc) 0 ms.

Definition total (st : state) : Z :=
  sum_durations (matchups st) + matchup_duration (current_matchup st).

Definition count_subs (lines : list string) : nat :=
  List.length (filter (Py.contains marker) lines).

(** The finalizations that drop a matchup without events. *)
Definition discarded (lines : list string) : nat :=
  match lines with
  | [] => 1
  | l :: _ => if Py.contains marker l then 1 else 0
  end.

Definition five_a_side (p : players_t) : Prop :=
  List.length (team1 p) = 5%nat /\ List.length (team2 p) = 5%nat.

(** No name twice on a side. *)
Definition distinct (p : players_t) : Prop :=
  NoDup (team1 p) /\ NoDup (team2 p).

(** On the rosters [p], the entering player of [line] is not among the
    names that stay on the side he joins. It holds of a line that is no
    substitution line, that cannot be taken apart, or whose exiting player
    is on neither side. *)
Definition joins_clean (p : players_t) (line : string) : bool :=
  if Py.contains marker line
  then
    match Py.index (Py.split dash (before spaced_marker line)) 1,
          Py.index (Py.split spaced_marker line) 1 with
    | Ok entering, Ok exiting =>
        if Py.mem exiting (team1 p)
        then match Py.remove exiting (team1 p) with
             | Ok staying => negb (Py.mem entering staying)
             | Raise _ => true
             end
        else if Py.mem exiting (team2 p)
        then match Py.remove exiting (team2 p) with
             | Ok staying => negb (Py.mem entering staying)
             | Raise _ => true
             end
        else true
    | _, _ => true
    end
  else true.

Definition digit_of (z : Z) : ascii := ascii_of_nat (48 + Z.to_nat z).

(** Two decimal digits of a number below 100. *)
Definition two_digits (z : Z) : string :=
  String (digit_of (z / 10)) (String (digit_of (z mod 10)) "").

Definition digits : list ascii :=
  ["0"; "1"; "2"; "3"; "4"; "5"; "6"; "7"; "8"; "9"]%char.

(** Every text the time pattern can match. *)
Definition tokens : list string :=
  flat_map (fun a => flat_map (fun b => flat_map (fun c => map (fun d =>
    String a (String b (String ":" (String c (String d "")))))
    digits) digits) digits) digits
  ++ flat_map (fun a => flat_map (fun c => map (fun d =>
    String a (String ":" (String c (String d ""))))
    digits) digits) digits
  ++ flat_map (fun a => flat_map (fun b => map (fun c =>
    String a (String b (String "." (String c ""))))
    digits) digits) digits
  ++ flat_map (fun a => map (fun c =>
    String a (String "." (String c "")))
    digits) digits.

(** What the clock statement of the loop body does on [line], from [st] to
    [st1]: only the duration of the open matchup and the clock move. *)
Definition clock_step (line : string) (st st1 : state) : Prop :=
  matchups st1 = matchups st
  /\ players (current_matchup st1) = players (current_matchup st)
  /\ events (current_matchup st1) = events (current_matchup st)
  /\ clock_ok (last_time st1) = true
  /\ secs_of (last_time st1)
     = match reading line with
       | Some t => t
       | None => secs_of (last_time st)
       end
  /\ matchup_duration (current_matchup st1)
     = matchup_duration (current_matchup st)
       + match reading line with
         | Some t => adjust (secs_of (last_time st) - t)
         | None => 0
         end.

(** The seconds accounted for so far, the seconds left on the clock, and
    720 for each rollover still to come along [rest]. *)
Definition potential (st : state) (rest : list string) : Z :=
  total st + secs_of (last_time st)
  + 720 * rollovers (secs_of (last_time st)) rest.

(** ** Sample inputs *)

Definition tip_off : string := "12:00 - Tip-off".
Definition missed_three : string := "10:30 - Luka Doncic misses 3-pt shot".
Definition doncic_for_irving : string :=
  "9:15 - Luka Doncic enters the game for Kyrie Irving".
Definition tatum_scores : string := "8:00 - Jayson Tatum makes 2-pt shot".

(** The end-to-end scenario. *)
Definition scenario : list string :=
  [tip_off; missed_three; doncic_for_irving; tatum_scores].

Definition lively_for_gafford : string :=
  "9:15 - Dereck Lively II enters the game for Daniel Gafford".
Definition hauser_for_tatum : string :=
  "9:15 - Sam Hauser enters the game for Jayson Tatum".

(** A substitution line without the [" - "] in front of the marker. *)
Definition no_dash : string := "Luka Doncic enters the game for Kyrie Irving".

(** The same defect, with an exiting player nobody fields. *)
Definition no_dash_stranger : string := "Bob enters the game for Alice".

(** A substitution first, under a clock above 24:00. *)
Definition late_clock : list string :=
  ["99:00 - A enters the game for B"; "0:00 - End of period"].

(** ** Vocabulary of the further properties *)

(** What the loop body enters in the events for each line: the line, twice
    for a substitution line. *)
Definition recorded (lines : list string) : list string :=
  flat_map (fun l => if Py.contains marker l then [l; l] else [l]) lines.

(** The events held so far, emitted matchups first. *)
Definition all_events (st : state) : list string :=
  (flat_map events (matchups st) ++ events (current_matchup st))%list.

(** Where the clock stands after [lines], having stood at [last] seconds. *)
Fixpoint final_clock (last : Z) (lines : list string) : Z :=
  match lines with
  | [] => last
  | l :: rest =>
      match reading l with
      | Some t => final_clock t rest
      | None => final_clock last rest
      end
  end.

(** The seconds put on the initial matchup by a substitution in the very
    first line, which are lost with it. *)
Definition dropped (lines : list string) : Z :=
  match lines with
  | [] => 0
  | l :: _ =>
      if Py.contains marker l
      then match reading l with
           | Some t => adjust (720 - t)
           | None => 0
           end
      else 0
  end.

(** The number a string begins with, and what follows it. *)
Fixpoint leading_number (acc : Z) (s : string) : Z * string :=
  match s with
  | EmptyString => (acc, "")
  | String c s' =>
      if Py.is_digit c then leading_number (10 * acc + Py.digit_val c) s'
      else (acc, s)
  end.

(** The seconds a clock text shows: [60 m + s] for [m:s], the whole seconds
    [n] for [n.d]. *)
Definition clock_value (clock : string) : Z :=
  let (m, rest) := leading_number 0 clock in
  match rest with
  | String sep rest' =>
      if Ascii.eqb sep ":" then 60 * m + fst (leading_number 0 rest') else m
  | EmptyString => m
  end.

(** A separator without its last character. *)
Fixpoint but_last (s : string) : string :=
  match s with
  | EmptyString => ""
  | String c s' =>
      match s' with
      | EmptyString => ""
      | String _ _ => String c (but_last s')
      end
  end.

Fixpoint last_char (s : string) : option ascii :=
  match s with
  | EmptyString => None
  | String c s' =>
      match last_char s' with
      | Some d => Some d
      | None => Some c
      end
  end.

(** A string with a first character, which is no white space. *)
Definition starts_clean (s : string) : bool :=
  match s with
  | EmptyString => false
  | String c _ => negb (Py.is_space c)
  end.

(** A string with a last character, which is no white space. *)
Definition ends_clean (s : string) : bool :=
  match last_char s with
  | Some c => negb (Py.is_space c)
  | None => false
  end.

(** The line the scraper makes of a table row (scrape2.py,
    [extract_espn_data]): [f"{time_cell} - {text_cell}"]. *)
Definition entry (time_cell text_cell : string) : string :=
  time_cell ++ " - " ++ text_cell.

(** The text the scraper writes (scrape2.py, [save_to_file]): one
    [file.write(f"{entry}\n")] per entry, in order. *)
Fixpoint written (data : list string) : string :=
  match data with
  | [] => ""
  | e :: rest => (e ++ newline) ++ written rest
  end.

(** ** The scripts and the world around them

    [main] and [save_to_file] of txt_to_json4.py and the whole of
    scrape2.py act on files, on the standard output and on a browser. What
    the operating system and Selenium do is not in the repository: it is a
    record of operations, one field per call the scripts make, and every
    statement below holds for all such records. An operation acts on the
    state of the disk or of the browser and may raise; the look-ups of
    Selenium ([find_elements], [find_element], [text]) read the browser and
    do not change it. *)

Module Script.

(** An exception in flight: one of the segmenter, or one of the library or
    the operating system with its message. *)
Inductive raised : Type :=
| Seg (e : exn)
| Ext (msg : string).

Inductive outcome (A : Type) : Type :=
| Got (a : A)
| Threw (r : raised).

Arguments Got {A} a.
Arguments Threw {A} r.

(** A [print]: a text, or a text followed by an exception, [f"...{e}"]. *)
Inductive printed : Type :=
| Say (s : string)
| SayError (s : string) (r : raised).

(** A statement: it acts on the world [W] and returns or raises. *)
Definition io (W A : Type) : Type := W -> outcome A * W.

Definition ret {W A : Type} (a : A) : io W A := fun w => (Got a, w).

Definition seq {W A B : Type} (c : io W A) (k : A -> io W B) : io W B :=
  fun w =>
    match c w with
    | (Got a, w') => k a w'
    | (Threw r, w') => (Threw r, w')
    end.

(** [try: body / except Exception as e: handler]. *)
Definition try_except {W A : Type} (body : io W A) (handler : raised -> io W A)
  : io W A :=
  fun w =>
    match body w with
    | (Got a, w') => (Got a, w')
    | (Threw r, w') => handler r w'
    end.

(** A call of the segmenter from a script. *)
Definition of_result {W A : Type} (r : result A) : io W A :=
  fun w =>
    match r with
    | Ok a => (Got a, w)
    | Raise e => (Threw (Seg e), w)
    end.

End Script.

Notation "x <~ c ;; k" := (Script.seq c (fun x => k))
  (at level 61, c at next level, right associativity).
Notation "c ;;; k" := (Script.seq c (fun _ => k))
  (at level 61, right associativity).

(** *** txt_to_json4.py: [save_to_file] and [main] *)

Module TxtToJson4.

Import Script.

(** The calls to the operating system: [open(name, 'r')] with [read()], and
    [open(name, 'w')] with [json.dump(data, file, indent=2)]. *)
Record OS : Type := mkOS {
  fs : Type;
  read_text : string -> fs -> outcome string;
  dump_json : string -> list matchup -> fs -> outcome unit * fs
}.

Section Run.

Variable os : OS.

Record world : Type := mkWorld {
  disk : fs os;
  out : list printed
}.

Definition print (p : printed) : io world unit :=
  fun w => (Got tt, mkWorld (disk w) (out w ++ [p])).

Definition read (filename : string) : io world string :=
  fun w => (read_text os filename (disk w), w).

Definition dump (data : list matchup) (filename : string) : io world unit :=
  fun w =>
    let (r, d) := dump_json os filename data (disk w) in
    (r, mkWorld d (out w)).

Definition save_to_file (data : list matchup) (filename : string)
  : io world unit :=
  try_except
    (dump data filename ;;;
     print (Say ("Parsed matchups successfully saved to " ++ filename)))
    (fun e => print (SayError "An error occurred while saving data: " e)).

Definition input_file : string := "play_by_play1.txt".
Definition output_file : string := "parsed_matchups1.json".

Definition main : io world unit :=
  try_except
    (play_by_play_text <~ read input_file ;;
     print (Say ("Processing play-by-play data from " ++ input_file
                 ++ "...")) ;;;
     parsed_matchups <~ of_result (parse_play_by_play play_by_play_text) ;;
     save_to_file parsed_matchups output_file)
    (fun e => print (SayError "An error occurred: " e)).

End Run.

End TxtToJson4.

(** *** scrape2.py *)

Module Scrape2.

Import Script.

(** A call to Selenium, as the trace of a run keeps it. *)
Inductive call (element : Type) : Type :=
| Chrome
| Get (url : string)
| Wait (selector : string)
| FindElements (selector : string)
| FindElement (parent : element) (selector : string)
| Text (e : element)
| Click (e : element)
| Sleep
| Quit.

Arguments Chrome {element}.
Arguments Get {element} url.
Arguments Wait {element} selector.
Arguments FindElements {element} selector.
Arguments FindElement {element} parent selector.
Arguments Text {element} e.
Arguments Click {element} e.
Arguments Sleep {element}.
Arguments Quit {element}.

(** Selenium and the operating system. [chrome] stands for the three
    statements that build the driver; [wait_presence] for
    [WebDriverWait(driver, 10).until(presence_of_element_located(...))];
    [write_file] for [open(name, 'w')] and the writes that follow, in
    order. *)
Record Env : Type := mkEnv {
  browser : Type;
  element : Type;
  fs : Type;
  chrome : browser -> outcome unit * browser;
  get : string -> browser -> outcome unit * browser;
  wait_presence : string -> browser -> outcome unit * browser;
  find_elements : string -> browser -> outcome (list element);
  find_element : element -> string -> browser -> outcome element;
  text : element -> browser -> outcome string;
  click : element -> browser -> outcome unit * browser;
  sleep : browser -> browser;
  quit : browser -> outcome unit * browser;
  write_file : string -> list string -> fs -> outcome unit * fs
}.

Section Run.

Variable env : Env.

Record world : Type := mkWorld {
  page : browser env;
  calls : list (call (element env));
  out : list printed;
  disk : fs env
}.

Definition print (p : printed) : io world unit :=
  fun w => (Got tt, mkWorld (page w) (calls w) (out w ++ [p]) (disk w)).

(** A call that acts on the browser. *)
Definition act (c : call (element env))
    (op : browser env -> outcome unit * browser env) : io world unit :=
  fun w =>
    let (r, b) := op (page w) in
    (r, mkWorld b (calls w ++ [c]) (out w) (disk w)).

(** A call that reads the browser. *)
Definition look {A : Type} (c : call (element env))
    (op : browser env -> outcome A) : io world A :=
  fun w =>
    (op (page w), mkWorld (page w) (calls w ++ [c]) (out w) (disk w)).

Definition time_selector : string := "td.playByPlay__time".
Definition text_selector : string := "td.playByPlay__text".

(** The body of [for row in rows]. *)
Definition row_entry (row : element env) : io world string :=
  time_td <~ look (FindElement row time_selector)
               (find_element env row time_selector) ;;
  time_cell <~ look (Text time_td) (text env time_td) ;;
  text_td <~ look (FindElement row text_selector)
               (find_element env row text_selector) ;;
  text_cell <~ look (Text text_td) (text env text_td) ;;
  ret (entry time_cell text_cell).

(** [for row in rows: ...] with the list [play_by_play] it fills, which
    outlives an exception of the body. *)
Fixpoint for_rows (rows : list (element env)) (play_by_play : list string)
    (w : world) : list string * outcome unit * world :=
  match rows with
  | [] => (play_by_play, Got tt, w)
  | row :: rest =>
      match row_entry row w with
      | (Got e, w') => for_rows rest (play_by_play ++ [e]) w'
      | (Threw r, w') => (play_by_play, Threw r, w')
      end
  end.

Definition extraction_error : string :=
  "An error occurred while extracting data from the table: ".

Definition extract_espn_data (table_selector : string)
  : io world (list string) :=
  fun w =>
    let rows_selector := table_selector ++ " > tr" in
    match look (FindElements rows_selector)
               (find_elements env rows_selector) w with
    | (Got rows, w1) =>
        match for_rows rows [] w1 with
        | (play_by_play, Got _, w2) => (Got play_by_play, w2)
        | (play_by_play, Threw e, w2) =>
            (print (SayError extraction_error e) ;;; ret play_by_play) w2
        end
    | (Threw e, w1) =>
        (print (SayError extraction_error e) ;;; ret []) w1
    end.

Definition table_selector : string :=
  "#fittPageContainer > div.pageContent > div > div > div:nth-child(6) > "
  ++ "div > div.PageLayout__Main > section.Card.Card--PlayByPlay > div > div > "
  ++ "div > div > div > div.Table__Scroller > table > tbody".

Definition quarter_labels : list string := ["1st"; "2nd"; "3rd"; "4th"].

(** [[tab for tab in quarter_tabs if tab.text in [...]]]. *)
Fixpoint labelled (tabs : list (element env))
  : io world (list (element env)) :=
  match tabs with
  | [] => ret []
  | tab :: rest =>
      label <~ look (Text tab) (text env tab) ;;
      kept <~ labelled rest ;;
      ret (if Py.mem label quarter_labels then tab :: kept else kept)
  end.

(** [for tab in quarter_tabs[1:]: ...] with [play_by_play_data]. *)
Fixpoint for_tabs (tabs : list (element env)) (play_by_play_data : list string)
  : io world (list string) :=
  match tabs with
  | [] => ret play_by_play_data
  | tab :: rest =>
      act (Click tab) (click env tab) ;;;
      act Sleep (fun b => (Got tt, sleep env b)) ;;;
      quarter_data <~ extract_espn_data table_selector ;;
      for_tabs rest (play_by_play_data ++ quarter_data)
  end.

Definition fetch_error : string :=
  "An error occurred while fetching play-by-play data: ".

Definition fetch_page_with_selenium (url : string)
  : io world (option (list string)) :=
  act Chrome (chrome env) ;;;
  try_except
    (act (Get url) (get env url) ;;;
     act (Wait table_selector) (wait_presence env table_selector) ;;;
     first_quarter_data <~ extract_espn_data table_selector ;;
     quarter_tabs <~ look (FindElements "nav ul li button")
                       (find_elements env "nav ul li button") ;;
     quarter_tabs <~ labelled quarter_tabs ;;
     play_by_play_data <~ for_tabs (tl quarter_tabs)
                            ([] ++ first_quarter_data) ;;
     act Quit (quit env) ;;;
     ret (Some play_by_play_data))
    (fun e =>
       act Quit (quit env) ;;;
       print (SayError fetch_error e) ;;;
       ret None).

Definition write (filename : string) (chunks : list string) : io world unit :=
  fun w =>
    let (r, d) := write_file env filename chunks (disk w) in
    (r, mkWorld (page w) (calls w) (out w) d).

Definition save_to_file (data : list string) (filename : string)
  : io world unit :=
  try_except
    (write filename (map (fun entry => entry ++ newline) data) ;;;
     print (Say ("Play-by-play data saved to " ++ filename)))
    (fun e =>
       print (SayError "An error occurred while saving data to file: " e)).

Definition espn_url : string :=
  "https://www.espn.com/nba/playbyplay/_/gameId/401656363".
Definition output_file : string := "play_by_play.txt".

Definition main : io world unit :=
  print (Say "Fetching play-by-play data...") ;;;
  play_by_play <~ fetch_page_with_selenium espn_url ;;
  match play_by_play with
  | Some (e :: es) =>
      print (Say ("Successfully fetched "
                  ++ Py.str (Z.of_nat (List.length (e :: es)))
                  ++ " entries.")) ;;;
      save_to_file (e :: es) output_file
  | _ => print (Say "Failed to fetch play-by-play data.")
  end.

(** What the body of the row loop makes of [row] on the browser [b]. *)
Definition row_text (b : browser env) (row : element env) : outcome string :=
  match find_element env row time_selector b with
  | Threw r => Threw r
  | Got time_td =>
      match text env time_td b with
      | Threw r => Threw r
      | Got time_cell =>
          match find_element env row text_selector b with
          | Threw r => Threw r
          | Got text_td =>
              match text env text_td b with
              | Threw r => Threw r
              | Got text_cell => Got (entry time_cell text_cell)
              end
          end
      end
  end.

(** A tab that reads as one of the four quarter labels on [b]. *)
Definition is_quarter_tab (b : browser env) (tab : element env) : bool :=
  match text env tab b with
  | Got label => Py.mem label quarter_labels
  | Threw _ => false
  end.

(** The elements clicked along a trace, in order. *)
Fixpoint clicked (cs : list (call (element env))) : list (element env) :=
  match cs with
  | [] => []
  | Click e :: rest => e :: clicked rest
  | _ :: rest => clicked rest
  end.

(** Between two worlds, nothing but look-ups and prints. *)
Definition quiet (w w' : world) : Prop :=
  page w' = page w
  /\ disk w' = disk w
  /\ clicked (calls w') = clicked (calls w).

(** A statement that leaves the disk alone. *)
Definition keeps_disk {A : Type} (c : io world A) : Prop :=
  forall w, disk (snd (c w)) = disk w.

(** A statement that only looks and prints. *)
Definition is_quiet {A : Type} (c : io world A) : Prop :=
  forall w, quiet w (snd (c w)).

End Run.

End Scrape2.

(** A small site to run the scraper on. The browser is the number of the
    quarter it shows, 0 when it shows none. There are three tabs, 1st, 2nd
    and OT (elements 101, 102, 105); the first quarter has the rows 11 and
    12, the second the rows 21, 22 and 23, and the time cell of row 22
    cannot be read. The cells of row [n] are the elements [10 n + 1] and
    [10 n + 2]. The disk is the list of the files written. *)
Definition sample_cells : list (nat * string) :=
  [(101, "1st"); (102, "2nd"); (105, "OT");
   (111, "12:00"); (112, "Tip-off");
   (121, "11:40"); (122, "Jayson Tatum makes 2-pt shot");
   (211, "12:00"); (212, "Start of the 2nd Quarter");
   (222, "Jaylen Brown misses 3-pt shot");
   (231, "11:31"); (232, "Luka Doncic defensive rebound")]%nat.

Definition sample_env : Scrape2.Env :=
  Scrape2.mkEnv nat nat (list (string * list string))
    (fun _ => (Script.Got tt, 0%nat))
    (fun _ _ => (Script.Got tt, 1%nat))
    (fun _ b => (Script.Got tt, b))
    (fun selector b =>
       if String.eqb selector "nav ul li button"
       then Script.Got [101; 102; 105]%nat
       else Script.Got
              (if Nat.eqb b 1 then [11; 12]%nat
               else if Nat.eqb b 2 then [21; 22; 23]%nat
               else []))
    (fun row selector _ =>
       Script.Got (10 * row
                   + if String.eqb selector "td.playByPlay__time"
                     then 1 else 2)%nat)
    (fun e _ =>
       match find (fun c => Nat.eqb (fst c) e) sample_cells with
       | Some c => Script.Got (snd c)
       | None => Script.Threw (Script.Ext "stale element reference")
       end)
    (fun e b => (Script.Got tt, if Nat.eqb e 102 then 2%nat else b))
    (fun b => b)
    (fun _ => (Script.Got tt, 0%nat))
    (fun name chunks d => (Script.Got tt, (name, chunks) :: d)).

(** The sample site with nothing done yet, and with the second quarter
    shown. *)
Definition sample_start : Scrape2.world sample_env :=
  Scrape2.mkWorld sample_env 0%nat [] [] [].

Definition sample_second_quarter : Scrape2.world sample_env :=
  Scrape2.mkWorld sample_env 2%nat [] [] [].

(** The sample site scraped: the fetch from the start, the fetch as [main]
    runs it after its first print, and the second quarter extracted. *)
Definition sample_fetched
  : Script.outcome (option (list string)) * Scrape2.world sample_env :=
  Eval vm_compute in
    Scrape2.fetch_page_with_selenium sample_env Scrape2.espn_url sample_start.

Definition sample_fetched_in_main
  : Script.outcome (option (list string)) * Scrape2.world sample_env :=
  Eval vm_compute in
    Scrape2.fetch_page_with_selenium sample_env Scrape2.espn_url
      (snd (Scrape2.print sample_env
              (Script.Say "Fetching play-by-play data...") sample_start)).

Definition sample_extracted
  : Script.outcome (list string) * Scrape2.world sample_env :=
  Eval vm_compute in
    Scrape2.extract_espn_data sample_env Scrape2.table_selector
      sample_second_quarter.

(** A disk that holds the input file alone and refuses every write. *)
Definition read_only_os : TxtToJson4.OS :=
  TxtToJson4.mkOS string
    (fun name d =>
       if String.eqb name "play_by_play1.txt" then Script.Got d
       else Script.Threw (Script.Ext "No such file or directory"))
    (fun _ _ d => (Script.Threw (Script.Ext "Permission denied"), d)).

(** ** Strings: splitting and containment *)

Lemma split_go_nonempty (sep : string) (s : string) :
  forall k, Py.split_go sep k s <> [].
Proof.
  induction s as [|c s IH]; intros [|k]; cbn [Py.split_go]; try discriminate.
  - destruct (String.prefix sep (String c s)); [discriminate|].
    specialize (IH O). destruct (Py.split_go sep 0 s) eqn:E; [congruence|].
    discriminate.
  - apply IH.
Qed.

Lemma cons_hd_length (c : ascii) (ps : list string) :
  ps <> [] -> List.length (Py.cons_hd c ps) = List.length ps.
Proof. destruct ps; [congruence|reflexivity]. Qed.

Lemma split_two_contains (sep s : string) :
  sep <> "" ->
  (2 <=? List.length (Py.split sep s))%nat = Py.contains sep s.
Proof.
  intros Hsep. unfold Py.split.
  induction s as [|c s IH].
  - simpl. destruct sep; [congruence|reflexivity].
  - cbn [Py.split_go Py.contains].
    destruct (String.prefix sep (String c s)) eqn:Hp.
    + cbn [orb List.length].
      pose proof (split_go_nonempty sep s (Nat.pred (String.length sep))) as Hne.
      destruct (Py.split_go sep (Nat.pred (String.length sep)) s);
        [congruence|reflexivity].
    + cbn [orb]. rewrite cons_hd_length by apply split_go_nonempty.
      exact IH.
Qed.

Lemma split_hd_before (sep s : string) :
  hd_error (Py.split sep s) = Some (before sep s).
Proof.
  unfold Py.split. induction s as [|c s IH]; [reflexivity|].
  cbn [Py.split_go before].
  destruct (String.prefix sep (String c s)); [reflexivity|].
  destruct (Py.split_go sep 0 s); [discriminate|].
  simpl in *. congruence.
Qed.

Lemma index_ok_iff {A : Type} (l : list A) (i : nat) :
  (exists a, Py.index l i = Ok a) <-> (i < List.length l)%nat.
Proof.
  unfold Py.index. rewrite <- nth_error_Some.
  destruct (nth_error l i); split; intros H; try congruence; eauto.
  - destruct H; congruence.
Qed.

Lemma index_raise {A : Type} (l : list A) (i : nat) :
  (List.length l <= i)%nat -> Py.index l i = Raise IndexError.
Proof.
  intros H. unfold Py.index.
  destruct (nth_error l i) eqn:E; [|reflexivity].
  assert (nth_error l i <> None) as Hn by congruence.
  apply nth_error_Some in Hn. lia.
Qed.

(** ** Rosters *)

Lemma remove_mem (x : string) (l : list string) :
  Py.mem x l = true ->
  exists l', Py.remove x l = Ok l' /\ List.length l = S (List.length l').
Proof.
  induction l as [|y l IH]; simpl; [discriminate|].
  rewrite (String.eqb_sym x y).
  destruct (String.eqb y x); simpl.
  - eauto.
  - intros H. destruct (IH H) as (l' & -> & Hlen). simpl.
    eexists; split; [reflexivity|]. simpl. now rewrite Hlen.
Qed.

Lemma mem_false_not_in (x : string) (l : list string) :
  Py.mem x l = false -> ~ In x l.
Proof.
  unfold Py.mem. intros H Hin.
  assert (existsb (String.eqb x) l = true) as E.
  { apply existsb_exists. exists x. split; [assumption|apply String.eqb_refl]. }
  congruence.
Qed.

(** [l.remove(x)] takes the first [x] out and keeps the order. *)
Lemma remove_first (x : string) (l : list string) :
  Py.mem x l = true ->
  exists a b,
    l = (a ++ x :: b)%list /\ ~ In x a /\ Py.remove x l = Ok (a ++ b)%list.
Proof.
  induction l as [|y l IH]; cbn [Py.mem existsb Py.remove]; [discriminate|].
  rewrite (String.eqb_sym x y).
  destruct (String.eqb y x) eqn:E.
  - intros _. apply String.eqb_eq in E; subst y.
    exists [], l. repeat split. intros [].
  - cbn [orb]. intros H. destruct (IH H) as (a & b & -> & Hna & ->).
    exists (y :: a), b. cbn [bind app]. repeat split.
    intros [->|Hin]; [|auto]. rewrite String.eqb_refl in E. discriminate.
Qed.

Lemma substitute_total (entering exiting : string) (p : players_t) :
  exists p', substitute entering exiting p = Ok p'
    /\ List.length (team1 p') = List.length (team1 p)
    /\ List.length (team2 p') = List.length (team2 p).
Proof.
  unfold substitute.
  destruct (Py.mem exiting (team1 p)) eqn:H1.
  - destruct (remove_mem _ _ H1) as (l & -> & Hl). simpl.
    eexists; split; [reflexivity|]. simpl.
    rewrite length_app. simpl. lia.
  - destruct (Py.mem exiting (team2 p)) eqn:H2.
    + destruct (remove_mem _ _ H2) as (l & -> & Hl). simpl.
      eexists; split; [reflexivity|]. simpl.
      rewrite length_app. simpl. lia.
    + eauto.
Qed.

Lemma substitute_absent (entering exiting : string) (p : players_t) :
  Py.mem exiting (team1 p) = false ->
  Py.mem exiting (team2 p) = false ->
  substitute entering exiting p = Ok p.
Proof. intros H1 H2. unfold substitute. now rewrite H1, H2. Qed.

(** ** The time pattern and the clock *)

Lemma is_digit_in (c : ascii) : Py.is_digit c = true -> In c digits.
Proof.
  destruct c as [[] [] [] [] [] [] [] []]; vm_compute; intros H;
    try discriminate H; tauto.
Qed.

Lemma eat_digit_some (s : string) (c : ascii) (r : string) :
  Re.eat_digit s = Some (c, r) -> s = String c r /\ In c digits.
Proof.
  destruct s as [|x s]; simpl; [discriminate|].
  destruct (Py.is_digit x) eqn:Hd; [|discriminate].
  intros H; inversion H; subst. split; [reflexivity|now apply is_digit_in].
Qed.

Lemma lead_some (two : bool) (s m r : string) :
  Re.lead two s = Some (m, r) ->
  if two
  then exists a b, m = String a (String b "") /\ In a digits /\ In b digits
  else exists a, m = String a "" /\ In a digits.
Proof.
  unfold Re.lead, Re.obind.
  destruct (Re.eat_digit s) as [[a r1]|] eqn:Ha; [|discriminate].
  apply eat_digit_some in Ha as [_ Ha].
  destruct two.
  - destruct (Re.eat_digit r1) as [[b r2]|] eqn:Hb; [|discriminate].
    apply eat_digit_some in Hb as [_ Hb].
    intros H; inversion H; subst. eauto.
  - intros H; inversion H; subst. eauto.
Qed.

Ltac pick d := apply in_flat_map; exists d; split; [assumption|].
Ltac pick_last d := apply in_map_iff; exists d; split; [reflexivity|assumption].

Lemma mm_ss_tokens (two : bool) (s tok : string) :
  Re.mm_ss two s = Some tok -> In tok tokens.
Proof.
  unfold Re.mm_ss, Re.obind.
  destruct (Re.lead two s) as [[m r]|] eqn:Hl; [|discriminate].
  apply lead_some in Hl.
  destruct (Re.eat_char ":" r) as [r1|]; [|discriminate].
  destruct (Re.eat_digit r1) as [[c r2]|] eqn:Hc; [|discriminate].
  apply eat_digit_some in Hc as [_ Hc].
  destruct (Re.eat_digit r2) as [[d r3]|] eqn:Hd; [|discriminate].
  apply eat_digit_some in Hd as [_ Hd].
  intros H; inversion H; subst; clear H. unfold tokens.
  destruct two.
  - destruct Hl as (a & b & -> & Ha & Hb). cbn [String.append].
    apply in_or_app; left. pick a. pick b. pick c. pick_last d.
  - destruct Hl as (a & -> & Ha). cbn [String.append].
    apply in_or_app; right. apply in_or_app; left. pick a. pick c. pick_last d.
Qed.

Lemma ss_s_tokens (two : bool) (s tok : string) :
  Re.ss_s two s = Some tok -> In tok tokens.
Proof.
  unfold Re.ss_s, Re.obind.
  destruct (Re.lead two s) as [[m r]|] eqn:Hl; [|discriminate].
  apply lead_some in Hl.
  destruct (Re.eat_char "." r) as [r1|]; [|discriminate].
  destruct (Re.eat_digit r1) as [[c r2]|] eqn:Hc; [|discriminate].
  apply eat_digit_some in Hc as [_ Hc].
  intros H; inversion H; subst; clear H. unfold tokens.
  destruct two.
  - destruct Hl as (a & b & -> & Ha & Hb). cbn [String.append].
    do 2 (apply in_or_app; right). apply in_or_app; left.
    pick a. pick b. pick_last c.
  - destruct Hl as (a & -> & Ha). cbn [String.append].
    do 3 (apply in_or_app; right). pick a. pick_last c.
Qed.

Lemma time_at_tokens (s tok : string) :
  Re.time_at s = Some tok -> In tok tokens.
Proof.
  unfold Re.time_at, Re.orelse.
  destruct (Re.mm_ss true s) eqn:H1.
  { intros H; inversion H; subst. eapply mm_ss_tokens; eassumption. }
  destruct (Re.mm_ss false s) eqn:H2.
  { intros H; inversion H; subst. eapply mm_ss_tokens; eassumption. }
  destruct (Re.ss_s true s) eqn:H3.
  { intros H; inversion H; subst. eapply ss_s_tokens; eassumption. }
  apply ss_s_tokens.
Qed.

Lemma search_time_tokens (line tok : string) :
  Re.search_time line = Some tok -> In tok tokens.
Proof.
  induction line as [|c line IH]; cbn [Re.search_time].
  - destruct (Re.time_at "") eqn:H; [|discriminate].
    intros E; inversion E; subst. eapply time_at_tokens; eassumption.
  - destruct (Re.time_at (String c line)) eqn:H; [|exact IH].
    intros E; inversion E; subst. eapply time_at_tokens; eassumption.
Qed.

Lemma tokens_all_ok : forallb token_ok tokens = true.
Proof. vm_compute. reflexivity. Qed.

Lemma search_time_ok (line tok : string) :
  Re.search_time line = Some tok -> token_ok tok = true.
Proof.
  intros H. apply search_time_tokens in H.
  pose proof tokens_all_ok as Hall. rewrite forallb_forall in Hall. auto.
Qed.

Lemma add_time_spec (st : state) (tok : string) :
  clock_ok (last_time st) = true ->
  token_ok tok = true ->
  exists t',
    convert_to_mm_ss_format tok = Ok t'
    /\ clock_ok t' = true
    /\ add_time_to_duration tok st
       = Ok (mkState (matchups st)
               (add_duration (current_matchup st)
                  (adjust (secs_of (last_time st) - secs_of t')))
               t').
Proof.
  unfold clock_ok, token_ok, add_time_to_duration, secs_of, adjust.
  intros Hl Ht.
  destruct (convert_to_mm_ss_format tok) as [t'|]; [|discriminate].
  exists t'. split; [reflexivity|]. split; [exact Ht|].
  unfold clock_ok in Ht. cbn [bind].
  destruct (unpack_clock (last_time st)) as [[lm ls]|]; [|discriminate].
  cbn [bind].
  destruct (unpack_clock t') as [[nm ns]|]; [|discriminate].
  reflexivity.
Qed.

Lemma clock_ok_nonneg (t : string) : clock_ok t = true -> 0 <= secs_of t.
Proof.
  unfold clock_ok, secs_of.
  destruct (unpack_clock t) as [[m s]|]; [|discriminate].
  intros H. apply andb_prop in H as [Hm Hs]. lia.
Qed.

(** The clock statement always goes through. *)
Lemma clock_phase_spec (line : string) (st : state) :
  clock_ok (last_time st) = true ->
  exists st1, clock_phase line st = Ok st1 /\ clock_step line st st1.
Proof.
  intros Hl. unfold clock_phase, clock_step, reading.
  destruct (Re.search_time line) as [tok|] eqn:Hs.
  - apply search_time_ok in Hs.
    destruct (add_time_spec st tok Hl Hs) as (t' & Hc & Ht & ->).
    rewrite Hc. eexists; split; [reflexivity|].
    cbn [matchups current_matchup last_time players events matchup_duration
         add_duration].
    repeat split; assumption.
  - exists st. repeat split; try assumption. lia.
Qed.

Lemma index_zero_split (sep s : string) :
  Py.index (Py.split sep s) 0 = Ok (before sep s).
Proof.
  pose proof (split_hd_before sep s) as H. unfold Py.index.
  destruct (Py.split sep s); simpl in *; [discriminate|congruence].
Qed.

Lemma index_one_split (sep s : string) :
  sep <> "" ->
  if Py.contains sep s
  then exists a, Py.index (Py.split sep s) 1 = Ok a
  else Py.index (Py.split sep s) 1 = Raise IndexError.
Proof.
  intros Hsep. rewrite <- (split_two_contains sep s Hsep).
  destruct (2 <=? List.length (Py.split sep s))%nat eqn:E.
  - apply Nat.leb_le in E. apply index_ok_iff. lia.
  - apply Nat.leb_gt in E. apply index_raise. lia.
Qed.

Lemma finalize_keeps (st : state) :
  current_matchup (finalize_matchup st) = current_matchup st
  /\ last_time (finalize_matchup st) = last_time st.
Proof.
  unfold finalize_matchup. destruct (events (current_matchup st)); auto.
Qed.

Lemma finalize_matchups (st : state) :
  matchups (finalize_matchup st)
  = match events (current_matchup st) with
    | [] => matchups st
    | _ :: _ => (matchups st ++ [current_matchup st])%list
    end.
Proof.
  unfold finalize_matchup. destruct (events (current_matchup st)); auto.
Qed.

(** The substitution branch on a line it can take apart. *)
Lemma handle_substitution_ok (line : string) (st : state) :
  Py.contains spaced_marker line = true ->
  Py.contains dash (before spaced_marker line) = true ->
  exists entering exiting p',
    Py.index (Py.split dash (before spaced_marker line)) 1 = Ok entering
    /\ Py.index (Py.split spaced_marker line) 1 = Ok exiting
    /\ substitute entering exiting (players (current_matchup st)) = Ok p'
    /\ List.length (team1 p')
       = List.length (team1 (players (current_matchup st)))
    /\ List.length (team2 p')
       = List.length (team2 (players (current_matchup st)))
    /\ handle_substitution line st
       = Ok (mkState (matchups (finalize_matchup st))
               (mkMatchup p' [line] 0) (last_time st)).
Proof.
  intros Hm Hd. unfold handle_substitution.
  destruct (finalize_keeps st) as [-> ->].
  rewrite index_zero_split. cbn [bind].
  assert (dash <> "") as Hd0 by discriminate.
  assert (spaced_marker <> "") as Hm0 by discriminate.
  pose proof (index_one_split dash (before spaced_marker line) Hd0) as H1.
  rewrite Hd in H1. destruct H1 as (entering & ->).
  pose proof (index_one_split spaced_marker line Hm0) as H2.
  rewrite Hm in H2. destruct H2 as (exiting & ->).
  cbn [bind players events matchup_duration].
  destruct (players (current_matchup st)) as [t1 t2] eqn:Hp.
  cbn [team1 team2].
  destruct (substitute_total entering exiting (mkPlayers t1 t2))
    as (p' & Hsub & L1 & L2).
  exists entering, exiting, p'. rewrite Hsub. cbn [bind].
  repeat split; assumption.
Qed.

(** The substitution branch on a line it cannot take apart. *)
Lemma handle_substitution_raise (line : string) (st : state) :
  Py.contains spaced_marker line
  && Py.contains dash (before spaced_marker line) = false ->
  handle_substitution line st = Raise IndexError.
Proof.
  intros H. unfold handle_substitution.
  rewrite index_zero_split. cbn [bind].
  assert (dash <> "") as Hd0 by discriminate.
  assert (spaced_marker <> "") as Hm0 by discriminate.
  pose proof (index_one_split dash (before spaced_marker line) Hd0) as H1.
  pose proof (index_one_split spaced_marker line Hm0) as H2.
  destruct (Py.contains dash (before spaced_marker line)).
  - destruct H1 as (entering & ->). cbn [bind].
    rewrite andb_true_r in H. rewrite H in H2. now rewrite H2.
  - now rewrite H1.
Qed.

(** ** One line *)

(** What one iteration does, case by case: the clock statement [st1], then
    either the plain append, or the substitution with its double entry of
    the line, or the IndexError of a line that cannot be taken apart. *)
Lemma step_cases (st : state) (line : string) :
  clock_ok (last_time st) = true ->
  exists st1,
    clock_step line st st1
    /\ if Py.contains marker line
       then
         if Py.contains spaced_marker line
            && Py.contains dash (before spaced_marker line)
         then
           exists entering exiting p',
             Py.index (Py.split dash (before spaced_marker line)) 1
             = Ok entering
             /\ Py.index (Py.split spaced_marker line) 1 = Ok exiting
             /\ substitute entering exiting (players (current_matchup st))
                = Ok p'
             /\ List.length (team1 p')
                = List.length (team1 (players (current_matchup st)))
             /\ List.length (team2 p')
                = List.length (team2 (players (current_matchup st)))
             /\ step st line
                = Ok (mkState (matchups (finalize_matchup st1))
                        (mkMatchup p' [line; line] 0) (last_time st1))
         else step st line = Raise IndexError
       else step st line = Ok (append_event line st1).
Proof.
  intros Hl.
  destruct (clock_phase_spec line st Hl) as (st1 & Hc & Hcs).
  exists st1. split; [assumption|].
  destruct Hcs as (_ & Hp & _).
  unfold step, subst_phase. rewrite Hc. cbn [bind].
  destruct (Py.contains marker line); [|reflexivity].
  destruct (Py.contains spaced_marker line
            && Py.contains dash (before spaced_marker line)) eqn:E.
  - apply andb_prop in E as [E1 E2].
    destruct (handle_substitution_ok line st1 E1 E2)
      as (entering & exiting & p' & H1 & H2 & H3 & L1 & L2 & ->).
    rewrite Hp in H3, L1, L2.
    exists entering, exiting, p'. repeat (split; [assumption|]).
    reflexivity.
  - now rewrite (handle_substitution_raise line st1 E).
Qed.

Lemma step_ok (st : state) (line : string) :
  clock_ok (last_time st) = true ->
  sub_ok line = true ->
  exists st', step st line = Ok st'.
Proof.
  intros Hl Hok. destruct (step_cases st line Hl) as (st1 & _ & H).
  unfold sub_ok in Hok.
  destruct (Py.contains marker line); cbn in Hok.
  - rewrite Hok in H. destruct H as (? & ? & ? & _ & _ & _ & _ & _ & ->). eauto.
  - eauto.
Qed.

Lemma step_raise (st : state) (line : string) :
  clock_ok (last_time st) = true ->
  sub_ok line = false ->
  step st line = Raise IndexError.
Proof.
  intros Hl Hok. destruct (step_cases st line Hl) as (st1 & _ & H).
  unfold sub_ok in Hok.
  destruct (Py.contains marker line); cbn in Hok; [|discriminate].
  now rewrite Hok in H.
Qed.

(** A successful iteration, read backwards. *)
Lemma step_inv (st st' : state) (line : string) :
  clock_ok (last_time st) = true ->
  step st line = Ok st' ->
  exists st1,
    clock_step line st st1
    /\ ((Py.contains marker line = false /\ st' = append_event line st1)
        \/ (Py.contains marker line = true
            /\ exists p',
                 List.length (team1 p')
                 = List.length (team1 (players (current_matchup st)))
                 /\ List.length (team2 p')
                    = List.length (team2 (players (current_matchup st)))
                 /\ st' = mkState (matchups (finalize_matchup st1))
                            (mkMatchup p' [line; line] 0) (last_time st1))).
Proof.
  intros Hl Hstep.
  destruct (step_cases st line Hl) as (st1 & Hcs & Hcase).
  exists st1. split; [assumption|].
  destruct (Py.contains marker line).
  - right. split; [reflexivity|].
    destruct (Py.contains spaced_marker line
              && Py.contains dash (before spaced_marker line)).
    + destruct Hcase as (en & ex & p' & _ & _ & _ & L1 & L2 & Heq).
      exists p'. repeat (split; [assumption|]). congruence.
    + congruence.
  - left. split; [reflexivity|]. congruence.
Qed.

Lemma step_clock_ok (st st' : state) (line : string) :
  clock_ok (last_time st) = true ->
  step st line = Ok st' ->
  clock_ok (last_time st') = true.
Proof.
  intros Hl Hstep.
  destruct (step_inv st st' line Hl Hstep)
    as (st1 & (_ & _ & _ & Hk & _) & [[_ ->]|[_ (p' & _ & _ & ->)]]);
    exact Hk.
Qed.

Lemma step_events (st st' : state) (line : string) :
  clock_ok (last_time st) = true ->
  step st line = Ok st' ->
  events (current_matchup st') <> [].
Proof.
  intros Hl Hstep.
  destruct (step_inv st st' line Hl Hstep)
    as (st1 & _ & [[_ ->]|[_ (p' & _ & _ & ->)]]); cbn.
  - destruct (events (current_matchup st1)); discriminate.
  - discriminate.
Qed.

(** ** The whole loop *)


Lemma loop_clock_ok (lines : list string) :
  forall st st',
    clock_ok (last_time st) = true ->
    loop st lines = Ok st' ->
    clock_ok (last_time st') = true.
Proof.
  induction lines as [|l lines IH]; intros st st' Hl; cbn [loop].
  - intros H; inversion H; subst; exact Hl.
  - destruct (step st l) as [s1|] eqn:Hs; cbn [bind]; [|discriminate].
    apply IH. eapply step_clock_ok; eassumption.
Qed.

Lemma loop_events (lines : list string) :
  forall st st',
    clock_ok (last_time st) = true ->
    events (current_matchup st) <> [] \/ lines <> [] ->
    loop st lines = Ok st' ->
    events (current_matchup st') <> [].
Proof.
  induction lines as [|l lines IH]; intros st st' Hl Hne; cbn [loop].
  - intros H; inversion H; subst. destruct Hne; congruence.
  - destruct (step st l) as [s1|] eqn:Hs; cbn [bind]; [|discriminate].
    apply IH.
    + eapply step_clock_ok; eassumption.
    + left. eapply step_events; eassumption.
Qed.

(** The loop goes through exactly on the line sequences whose substitution
    lines can all be taken apart; it stops with IndexError on the others. *)
Lemma loop_ok (lines : list string) :
  forall st,
    clock_ok (last_time st) = true ->
    forallb sub_ok lines = true ->
    exists st', loop st lines = Ok st'.
Proof.
  induction lines as [|l lines IH]; intros st Hl Hall; cbn [loop].
  - eauto.
  - cbn [forallb] in Hall. apply andb_prop in Hall as [H1 H2].
    destruct (step_ok st l Hl H1) as (s1 & Hs). rewrite Hs. cbn [bind].
    apply IH; [|assumption]. eapply step_clock_ok; eassumption.
Qed.

Lemma loop_raise (lines : list string) :
  forall st,
    clock_ok (last_time st) = true ->
    forallb sub_ok lines = false ->
    loop st lines = Raise IndexError.
Proof.
  induction lines as [|l lines IH]; intros st Hl Hall; cbn [loop].
  - discriminate.
  - cbn [forallb] in Hall.
    destruct (sub_ok l) eqn:H1.
    + destruct (step_ok st l Hl H1) as (s1 & Hs). rewrite Hs. cbn [bind].
      apply IH; [|assumption]. eapply step_clock_ok; eassumption.
    + now rewrite (step_raise st l Hl H1).
Qed.

Lemma init_clock_ok (t1 t2 : list string) :
  clock_ok (last_time (init t1 t2)) = true.
Proof. reflexivity. Qed.

(** ** The properties of the segmenter *)

(** C1, where the code departs from the specification: a substitution line
    is meant to be entered once in the events of the matchup it opens.
    [parse_play_by_play] seeds
    the new matchup with the line and then appends it again: on two
    consecutive substitution lines the matchup between them is emitted with
    duration 0 and the first line twice in its events. *)
Theorem C1_substitution_line_entered_twice :
  exists m1 m2,
    parse_play_by_play (unlines [lively_for_gafford; hauser_for_tatum])
    = Ok [m1; m2]
    /\ events m1 = [lively_for_gafford; lively_for_gafford]
    /\ matchup_duration m1 = 0
    /\ events m2 = [hauser_for_tatum; hauser_for_tatum].
Proof.
  do 2 eexists. split; [vm_compute; reflexivity|]. repeat split.
Qed.

(** C2, where the code departs from the specification: on the four lines
    of the end-to-end scenario and the module's starting lineups the
    segmenter emits exactly two matchups. The first is as specified: the
    starting rosters, the two lines before the substitution, 165 seconds.
    The second has Luka Doncic and not Kyrie Irving in [team1] and the
    starting [team2], but its events are not the substitution line plus the
    final scoring line: the substitution line stands twice in front of the
    scoring line, three events in all. *)
Theorem C2_end_to_end_scenario :
  parse_play_by_play (unlines scenario)
  = Ok [mkMatchup (mkPlayers team1_lineup team2_lineup)
          [tip_off; missed_three] 165;
        mkMatchup
          (mkPlayers
             ["Luka Doncic"; "Daniel Gafford"; "P.J. Washington";
              "Derrick Jones Jr."; "Luka Doncic"]
             team2_lineup)
          [doncic_for_irving; doncic_for_irving; tatum_scores] 75]
  /\ [doncic_for_irving; doncic_for_irving; tatum_scores]
     <> [doncic_for_irving; tatum_scores]
  /\ Py.mem "Luka Doncic"
       ["Luka Doncic"; "Daniel Gafford"; "P.J. Washington";
        "Derrick Jones Jr."; "Luka Doncic"] = true
  /\ Py.mem "Kyrie Irving"
       ["Luka Doncic"; "Daniel Gafford"; "P.J. Washington";
        "Derrick Jones Jr."; "Luka Doncic"] = false.
Proof.
  split; [vm_compute; reflexivity|].
  split; [discriminate|]. split; reflexivity.
Qed.






Lemma digit_range (z : Z) :
  0 <= z <= 9 ->
  z = 0 \/ z = 1 \/ z = 2 \/ z = 3 \/ z = 4 \/ z = 5 \/ z = 6 \/ z = 7
  \/ z = 8 \/ z = 9.
Proof. lia. Qed.

(** C7: a bare-decimal token, one or two integer digits [hi lo] and one
    tenths digit [f] of value [v] seconds, is rewritten as [mm:ss] with
    [mm = floor (v / 60)] and [ss = floor (v mod 60)], two digits each; the
    tenths are dropped, not rounded: [mm] and [ss] are the quotient and the
    remainder by 60 of the integer part. *)
Theorem C7_bare_decimal_normalisation (hi lo f : Z) :
  0 <= hi <= 9 -> 0 <= lo <= 9 -> 0 <= f <= 9 ->
  let n := 10 * hi + lo in
  let v := Qmake (10 * n + f) 10 in
  let mm := Qfloor (v / 60) in
  let ss := Qfloor (v - 60 * inject_Z (Qfloor (v / 60))) in
  let out := two_digits mm ++ ":" ++ two_digits ss in
  convert_to_mm_ss_format
    (String (digit_of hi) (String (digit_of lo)
       (String "." (String (digit_of f) "")))) = Ok out
  /\ (hi = 0 ->
      convert_to_mm_ss_format
        (String (digit_of lo) (String "." (String (digit_of f) ""))) = Ok out)
  /\ mm = n / 60
  /\ ss = n mod 60.
Proof.
  intros Hhi Hlo Hf.
  apply digit_range in Hhi, Hlo, Hf.
  repeat match goal with H : _ \/ _ |- _ => destruct H as [H|H] end;
    subst; vm_compute; repeat split; try reflexivity;
    intros; discriminate.
Qed.

(** C7, at the token 4.7: it becomes 00:04. *)
Lemma C7_bare_decimal_normalisation_witness :
  convert_to_mm_ss_format "4.7" = Ok "00:04".
Proof.
  refine (proj1 (proj2 (C7_bare_decimal_normalisation 0 4 7 _ _ _)) eq_refl);
    lia.
Defined.

(** ** Failures *)



(** ** The events of the open matchup *)

Lemma step_last (st st' : state) (line : string) :
  clock_ok (last_time st) = true ->
  step st line = Ok st' ->
  forall d, last (events (current_matchup st')) d = line.
Proof.
  intros Hl Hstep d.
  destruct (step_inv st st' line Hl Hstep)
    as (st1 & _ & [[_ ->]|[_ (p' & _ & _ & ->)]]); cbn.
  - apply last_last.
  - reflexivity.
Qed.

Lemma loop_last (lines : list string) :
  forall st st' d,
    clock_ok (last_time st) = true ->
    lines <> [] ->
    loop st lines = Ok st' ->
    last (events (current_matchup st')) d = last lines d.
Proof.
  induction lines as [|l lines IH]; intros st st' d Hl Hne; [congruence|].
  cbn [loop]. destruct (step st l) as [s1|] eqn:Hs; cbn [bind]; [|discriminate].
  pose proof (step_clock_ok _ _ _ Hl Hs) as Hl1.
  destruct lines as [|l2 lines].
  - cbn [loop]. intros H; inversion H; subst.
    now apply (step_last st st' l).
  - intros H. rewrite (IH s1 st' d Hl1 ltac:(discriminate) H). reflexivity.
Qed.

(** After at least one line the last finalization emits the open matchup. *)
Lemma segment_snoc (t1 t2 : list string) (lines : list string) :
  lines <> [] ->
  forallb sub_ok lines = true ->
  exists st,
    loop (init t1 t2) lines = Ok st
    /\ events (current_matchup st) <> []
    /\ segment t1 t2 lines = Ok (matchups st ++ [current_matchup st])%list.
Proof.
  intros Hne Hall.
  destruct (loop_ok lines (init t1 t2) (init_clock_ok t1 t2) Hall) as (st & Hst).
  exists st. split; [assumption|].
  assert (events (current_matchup st) <> []) as Hev.
  { eapply loop_events; [apply init_clock_ok| |eassumption]. now right. }
  split; [assumption|].
  unfold segment. rewrite Hst. cbn [bind]. rewrite finalize_matchups.
  destruct (events (current_matchup st)); [congruence|reflexivity].
Qed.

(** C10, an input on which the sentence of the specification fails: with a
    substitution
    line that cannot be taken apart [parse_play_by_play] returns no matchup
    at all. *)
Lemma C10_nothing_returned_on_raise :
  ~ exists m ms,
      parse_play_by_play (unlines [tip_off; no_dash]) = Ok (m :: ms).
Proof.
  intros (m & ms & H). vm_compute in H. discriminate H.
Qed.

(** C10, as the code has it: stripping and splitting never leaves the loop
    without a line; when no line makes the substitution branch raise,
    [parse_play_by_play] returns at least one matchup, the last one ending
    with the last line; on an input that strips to the empty string it
    returns the single matchup with the starting lineups, the one event
    [""] and duration 0. *)
Theorem C10_at_least_one_matchup (text : string) :
  forallb sub_ok (Py.split newline (Py.strip text)) = true ->
  Py.split newline (Py.strip text) <> []
  /\ exists ms m,
       parse_play_by_play text = Ok (ms ++ [m])%list
       /\ events m <> []
       /\ last (events m) "" = last (Py.split newline (Py.strip text)) ""
       /\ (Py.strip text = "" ->
           ms = []
           /\ m = mkMatchup (mkPlayers team1_lineup team2_lineup) [""] 0).
Proof.
  intros Hall.
  assert (Py.split newline (Py.strip text) <> []) as Hne
      by apply split_go_nonempty.
  split; [assumption|].
  destruct (segment_snoc team1_lineup team2_lineup _ Hne Hall)
    as (st & Hst & Hev & Hseg).
  exists (matchups st), (current_matchup st).
  split; [exact Hseg|]. split; [assumption|]. split.
  - eapply loop_last; [apply init_clock_ok|assumption|eassumption].
  - intros Hs. rewrite Hs in Hst. vm_compute in Hst.
    inversion Hst; subst st. split; reflexivity.
Qed.

(** C10, at the empty input. *)
Lemma C10_at_least_one_matchup_witness :
  parse_play_by_play ""
  = Ok [mkMatchup (mkPlayers team1_lineup team2_lineup) [""] 0].
Proof.
  destruct (C10_at_least_one_matchup "" eq_refl)
    as (_ & ms & m & Hp & _ & _ & Hs).
  destruct (Hs eq_refl) as [-> ->]. exact Hp.
Defined.

(** ** What the emitted matchups inherit from the open one *)

Section Emitted.

Variable P : matchup -> Prop.

(** A finalization emits the open matchup or nothing. *)
Lemma finalize_Forall (st : state) :
  Forall P (matchups st) ->
  (events (current_matchup st) <> [] -> P (current_matchup st)) ->
  Forall P (matchups (finalize_matchup st)).
Proof.
  intros Hms Hcur. rewrite finalize_matchups.
  destruct (events (current_matchup st)) eqn:E; [assumption|].
  apply Forall_app. split; [assumption|].
  constructor; [|constructor]. apply Hcur. discriminate.
Qed.

(** [P] depends on the rosters and events only, not on the duration. *)
Hypothesis P_duration :
  forall m m', players m = players m' -> events m = events m' -> P m -> P m'.

Lemma step_Forall (st st' : state) (line : string) :
  clock_ok (last_time st) = true ->
  step st line = Ok st' ->
  Forall P (matchups st) ->
  (events (current_matchup st) <> [] -> P (current_matchup st)) ->
  Forall P (matchups st').
Proof.
  intros Hl Hstep Hms Hcur.
  destruct (step_inv st st' line Hl Hstep)
    as (st1 & (Hm & Hp & He & _) & [[_ ->]|[_ (p' & _ & _ & ->)]]);
    cbn [matchups append_event].
  - now rewrite Hm.
  - apply finalize_Forall; [now rewrite Hm|].
    rewrite He. intros Hne.
    apply (P_duration (current_matchup st)); auto.
Qed.

End Emitted.

Lemma step_five (st st' : state) (line : string) :
  clock_ok (last_time st) = true ->
  step st line = Ok st' ->
  five_a_side (players (current_matchup st)) ->
  Forall (fun m => five_a_side (players m)) (matchups st) ->
  five_a_side (players (current_matchup st'))
  /\ Forall (fun m => five_a_side (players m)) (matchups st').
Proof.
  intros Hl Hstep Hcur Hms. split.
  - destruct (step_inv st st' line Hl Hstep)
      as (st1 & (_ & Hp & _) & [[_ ->]|[_ (p' & L1 & L2 & ->)]]);
      cbn [current_matchup append_event players].
    + now rewrite Hp.
    + destruct Hcur as [H1 H2]. split; congruence.
  - apply (step_Forall (fun m => five_a_side (players m))) with st line;
      auto.
    intros m m' Hp _. now rewrite Hp.
Qed.

Lemma loop_five (lines : list string) :
  forall st st',
    clock_ok (last_time st) = true ->
    loop st lines = Ok st' ->
    five_a_side (players (current_matchup st)) ->
    Forall (fun m => five_a_side (players m)) (matchups st) ->
    five_a_side (players (current_matchup st'))
    /\ Forall (fun m => five_a_side (players m)) (matchups st').
Proof.
  induction lines as [|l lines IH]; intros st st' Hl; cbn [loop].
  - intros H; inversion H; subst; auto.
  - destruct (step st l) as [s1|] eqn:Hs; cbn [bind]; [|discriminate].
    intros Hloop Hcur Hms.
    destruct (step_five st s1 l Hl Hs Hcur Hms) as [Hcur1 Hms1].
    apply (IH s1 st'); auto. eapply step_clock_ok; eassumption.
Qed.

Lemma lineups_distinct : NoDup team1_lineup /\ NoDup team2_lineup.
Proof.
  split; repeat constructor; cbn; intuition discriminate.
Qed.

(** C5, an input on which the sentence of the specification fails: from the
    module's
    lineups, five distinct names a side, the substitution line of the
    end-to-end scenario leaves Luka Doncic twice in [team1]. *)
Lemma C5_entering_player_already_fielded :
  NoDup team1_lineup /\ NoDup team2_lineup
  /\ List.length team1_lineup = 5%nat /\ List.length team2_lineup = 5%nat
  /\ exists st,
       loop (init team1_lineup team2_lineup) [doncic_for_irving] = Ok st
       /\ ~ NoDup (team1 (players (current_matchup st))).
Proof.
  destruct lineups_distinct as [H1 H2].
  repeat (split; [assumption || reflexivity|]).
  eexists. split; [vm_compute; reflexivity|].
  cbn. intros H. inversion H as [|x l Hin _]; subst.
  apply Hin. cbn. tauto.
Qed.

Lemma NoDup_snoc (x : string) (l : list string) :
  NoDup l -> ~ In x l -> NoDup (l ++ [x]).
Proof.
  intros Hl Hx. induction l as [|y l IH]; cbn.
  - constructor; [intros []|constructor].
  - inversion Hl as [|? ? Hy Hl']; subst. constructor.
    + intros Hin. apply in_app_or in Hin as [Hin|[->|[]]]; [auto|].
      apply Hx. now left.
    + apply IH; [assumption|]. intros Hin. apply Hx. now right.
Qed.

(** Taking [exiting] out of a side without duplicates and putting in a name
    that is not among those who stay leaves no duplicate. *)
Lemma swap_distinct (entering exiting : string) (side staying : list string) :
  NoDup side ->
  Py.remove exiting side = Ok staying ->
  Py.mem entering staying = false ->
  Py.mem exiting side = true ->
  NoDup (staying ++ [entering]).
Proof.
  intros Hnd Hrem Hfresh Hmem.
  destruct (remove_first exiting side Hmem) as (a & b & -> & _ & Hrem').
  rewrite Hrem in Hrem'. injection Hrem' as ->.
  apply NoDup_snoc; [|now apply mem_false_not_in].
  eapply NoDup_remove_1. exact Hnd.
Qed.

Lemma substitute_distinct (entering exiting : string) (p p' : players_t) :
  distinct p ->
  substitute entering exiting p = Ok p' ->
  (if Py.mem exiting (team1 p)
   then match Py.remove exiting (team1 p) with
        | Ok staying => negb (Py.mem entering staying)
        | Raise _ => true
        end
   else if Py.mem exiting (team2 p)
   then match Py.remove exiting (team2 p) with
        | Ok staying => negb (Py.mem entering staying)
        | Raise _ => true
        end
   else true) = true ->
  distinct p'.
Proof.
  unfold substitute, distinct. intros [H1 H2].
  destruct (Py.mem exiting (team1 p)) eqn:M1.
  - destruct (Py.remove exiting (team1 p)) as [l|] eqn:R; [|discriminate].
    cbn [bind]. intros H Hc; inversion H; subst. cbn [team1 team2].
    apply negb_true_iff in Hc. split; [|assumption].
    apply (swap_distinct entering exiting (team1 p) l); assumption.
  - destruct (Py.mem exiting (team2 p)) eqn:M2.
    + destruct (Py.remove exiting (team2 p)) as [l|] eqn:R; [|discriminate].
      cbn [bind]. intros H Hc; inversion H; subst. cbn [team1 team2].
      apply negb_true_iff in Hc. split; [assumption|].
      apply (swap_distinct entering exiting (team2 p) l); assumption.
    + intros H _; inversion H; subst. auto.
Qed.

Lemma step_distinct (st st' : state) (line : string) :
  clock_ok (last_time st) = true ->
  step st line = Ok st' ->
  distinct (players (current_matchup st)) ->
  joins_clean (players (current_matchup st)) line = true ->
  distinct (players (current_matchup st')).
Proof.
  intros Hl Hstep Hd Hclean.
  destruct (step_cases st line Hl) as (st1 & (_ & Hp & _) & Hcase).
  unfold joins_clean in Hclean.
  destruct (Py.contains marker line).
  - destruct (Py.contains spaced_marker line
              && Py.contains dash (before spaced_marker line)).
    + destruct Hcase as (en & ex & p' & Hen & Hex & Hs & _ & _ & Heq).
      rewrite Hen, Hex in Hclean.
      rewrite Hstep in Heq. inversion Heq; subst st'.
      cbn [current_matchup players].
      eapply substitute_distinct; eassumption.
    + congruence.
  - rewrite Hstep in Hcase. inversion Hcase; subst st'.
    cbn [append_event current_matchup players]. now rewrite Hp.
Qed.

Lemma loop_distinct (lines : list string) :
  forall st st',
    clock_ok (last_time st) = true ->
    loop st lines = Ok st' ->
    distinct (players (current_matchup st)) ->
    Forall (fun m => distinct (players m)) (matchups st) ->
    (forall pre l rest s,
        lines = (pre ++ l :: rest)%list ->
        loop st pre = Ok s ->
        joins_clean (players (current_matchup s)) l = true) ->
    distinct (players (current_matchup st'))
    /\ Forall (fun m => distinct (players m)) (matchups st').
Proof.
  induction lines as [|l lines IH]; intros st st' Hl; cbn [loop].
  - intros H; inversion H; subst; auto.
  - destruct (step st l) as [s1|] eqn:Hs; cbn [bind]; [|discriminate].
    intros Hloop Hcur Hms Hclean.
    apply (IH s1 st'); auto.
    + eapply step_clock_ok; eassumption.
    + eapply step_distinct; try eassumption.
      apply (Hclean [] l lines st); reflexivity.
    + apply (step_Forall (fun m => distinct (players m))) with st l; auto.
      intros m m' Hp _. now rewrite Hp.
    + intros pre l' rest s -> Hpre.
      apply (Hclean (l :: pre) l' rest s); [reflexivity|].
      cbn [loop]. now rewrite Hs.
Qed.

(** C5, as the code has it: from rosters of five names a side, after any
    number of lines the open matchup has five names a side, and so has
    every matchup emitted so far and every matchup of the output. From
    rosters without a name twice on a side, no side ever has a name twice,
    in the open matchup or in the output, as long as no substitution brings
    in a player whose name is among those who stay on the side he joins:
    that the code does not check. *)
Theorem C5_five_names_a_side (t1 t2 : list string) (lines : list string)
    (st : state) :
  List.length t1 = 5%nat ->
  List.length t2 = 5%nat ->
  loop (init t1 t2) lines = Ok st ->
  (five_a_side (players (current_matchup st))
   /\ Forall (fun m => five_a_side (players m)) (matchups st)
   /\ Forall (fun m => five_a_side (players m))
        (matchups (finalize_matchup st))
   /\ segment t1 t2 lines = Ok (matchups (finalize_matchup st)))
  /\ (NoDup t1 ->
      NoDup t2 ->
      (forall pre l rest s,
          lines = (pre ++ l :: rest)%list ->
          loop (init t1 t2) pre = Ok s ->
          joins_clean (players (current_matchup s)) l = true) ->
      distinct (players (current_matchup st))
      /\ Forall (fun m => distinct (players m)) (matchups st)
      /\ Forall (fun m => distinct (players m))
           (matchups (finalize_matchup st))).
Proof.
  intros H1 H2 Hloop. split.
  - destruct (loop_five lines (init t1 t2) st (init_clock_ok t1 t2) Hloop)
      as [Hcur Hms].
    + split; assumption.
    + constructor.
    + repeat split; try assumption; try apply Hcur.
      * apply finalize_Forall; auto.
      * unfold segment. now rewrite Hloop.
  - intros N1 N2 Hclean.
    destruct (loop_distinct lines (init t1 t2) st (init_clock_ok t1 t2) Hloop)
      as [Hcur Hms].
    + split; assumption.
    + constructor.
    + exact Hclean.
    + repeat split; try assumption; try apply Hcur.
      apply finalize_Forall; auto.
Qed.

(** C5, on two substitutions that bring in new names. *)
Lemma C5_five_names_a_side_witness :
  exists ms,
    parse_play_by_play (unlines [lively_for_gafford; hauser_for_tatum])
    = Ok ms
    /\ Forall (fun m => five_a_side (players m)) ms
    /\ Forall (fun m => distinct (players m)) ms.
Proof.
  destruct (loop (init team1_lineup team2_lineup)
              [lively_for_gafford; hauser_for_tatum]) as [st|] eqn:E;
    [|vm_compute in E; discriminate E].
  destruct (C5_five_names_a_side team1_lineup team2_lineup
              [lively_for_gafford; hauser_for_tatum] st
              eq_refl eq_refl E) as ((_ & _ & Hfive & Hseg) & Hdistinct).
  exists (matchups (finalize_matchup st)).
  split; [exact Hseg|]. split; [exact Hfive|].
  destruct lineups_distinct as [N1 N2].
  apply (Hdistinct N1 N2).
  intros pre l rest s Heq Hpre.
  destruct pre as [|x [|y [|z pre]]]; cbn [app] in Heq.
  - injection Heq as <- _. cbn in Hpre. injection Hpre as <-.
    vm_compute. reflexivity.
  - injection Heq as <- <- _. vm_compute in Hpre. injection Hpre as <-.
    vm_compute. reflexivity.
  - injection Heq as _ _ Heq. destruct rest; discriminate Heq.
  - injection Heq as _ _ Heq. destruct pre; discriminate Heq.
Defined.

(** ** Emitted and discarded matchups *)

Lemma loop_emitted_events (lines : list string) :
  forall st st',
    clock_ok (last_time st) = true ->
    loop st lines = Ok st' ->
    Forall (fun m => events m <> []) (matchups st) ->
    Forall (fun m => events m <> []) (matchups st').
Proof.
  induction lines as [|l lines IH]; intros st st' Hl; cbn [loop].
  - intros H; inversion H; subst; auto.
  - destruct (step st l) as [s1|] eqn:Hs; cbn [bind]; [|discriminate].
    intros Hloop Hms. apply (IH s1 st'); auto.
    + eapply step_clock_ok; eassumption.
    + apply (step_Forall (fun m => events m <> [])) with st l; auto.
      intros m m' _ He. now rewrite He.
Qed.

(** A substitution line emits the open matchup unless it has no event. *)
Lemma step_count (st st' : state) (line : string) :
  clock_ok (last_time st) = true ->
  step st line = Ok st' ->
  List.length (matchups st')
  = (List.length (matchups st)
     + if Py.contains marker line
       then match events (current_matchup st) with
            | [] => 0
            | _ :: _ => 1
            end
       else 0)%nat.
Proof.
  intros Hl Hstep.
  destruct (step_inv st st' line Hl Hstep)
    as (st1 & (Hm & _ & He & _) & [[-> ->]|[-> (p' & _ & _ & ->)]]);
    cbn [matchups append_event].
  - rewrite Hm. lia.
  - rewrite finalize_matchups, He, Hm.
    destruct (events (current_matchup st)); [lia|].
    rewrite length_app. reflexivity.
Qed.

Lemma loop_count (lines : list string) :
  forall st st',
    clock_ok (last_time st) = true ->
    events (current_matchup st) <> [] ->
    loop st lines = Ok st' ->
    List.length (matchups st')
    = (List.length (matchups st) + count_subs lines)%nat.
Proof.
  unfold count_subs.
  induction lines as [|l lines IH]; intros st st' Hl Hne; cbn [loop].
  - intros H; inversion H; subst. cbn. lia.
  - destruct (step st l) as [s1|] eqn:Hs; cbn [bind]; [|discriminate].
    intros Hloop.
    rewrite (IH s1 st' (step_clock_ok _ _ _ Hl Hs) (step_events _ _ _ Hl Hs)
               Hloop).
    rewrite (step_count st s1 l Hl Hs). cbn [filter].
    destruct (Py.contains marker l);
      destruct (events (current_matchup st)); cbn [List.length];
      try congruence; lia.
Qed.

(** C6, inputs on which the sentence of the specification fails. The drop
    of a matchup without events is not confined to the empty input. On the
    two lines below, a substitution first, the finalization of the first
    line meets the initial matchup without events and drops it: of the two
    finalizations one matchup comes out. And on the empty string, the
    empty input of [parse_play_by_play], nothing is dropped: the one blank
    line is an event and the one finalization emits its matchup. *)
Lemma C6_dropped_on_a_non_empty_input :
  [lively_for_gafford; tatum_scores] <> []
  /\ count_subs [lively_for_gafford; tatum_scores] = 1%nat
  /\ (exists st1,
        clock_phase lively_for_gafford (init team1_lineup team2_lineup)
        = Ok st1
        /\ events (current_matchup st1) = []
        /\ matchups (finalize_matchup st1) = matchups st1)
  /\ (exists m,
        segment team1_lineup team2_lineup [lively_for_gafford; tatum_scores]
        = Ok [m]
        /\ players m <> mkPlayers team1_lineup team2_lineup)
  /\ Py.split newline (Py.strip "") = [""]
  /\ count_subs (Py.split newline (Py.strip "")) = 0%nat
  /\ parse_play_by_play ""
     = Ok [mkMatchup (mkPlayers team1_lineup team2_lineup) [""] 0].
Proof.
  split; [discriminate|]. split; [reflexivity|].
  split. { eexists. split; [vm_compute; reflexivity|]. split; reflexivity. }
  split. { eexists. split; [vm_compute; reflexivity|]. discriminate. }
  repeat split; vm_compute; reflexivity.
Qed.

(** C6, as the code has it: no matchup of the output has an empty events
    list. Each of the finalizations, one per substitution line and one at
    the end, emits its matchup, but for the single one that meets a
    matchup without events and drops it: the last finalization when there
    is no line at all, which [parse_play_by_play] never hands over, and the
    first one when the very first line is a substitution. In that second
    case the initial matchup is gone after the first line and the matchup
    opened by the line is the open one. *)
Theorem C6_no_empty_matchup (t1 t2 : list string) (lines : list string)
    (ms : list matchup) :
  segment t1 t2 lines = Ok ms ->
  Forall (fun m => events m <> []) ms
  /\ (List.length ms + discarded lines = 1 + count_subs lines)%nat
  /\ (forall l rest,
         lines = l :: rest ->
         Py.contains marker l = true ->
         exists st1,
           step (init t1 t2) l = Ok st1
           /\ matchups st1 = []
           /\ events (current_matchup st1) = [l; l]
           /\ matchup_duration (current_matchup st1) = 0).
Proof.
  unfold segment. intros Hseg.
  destruct (loop (init t1 t2) lines) as [st|] eqn:Hloop; [|discriminate].
  cbn [bind] in Hseg. inversion Hseg; subst ms; clear Hseg.
  pose proof (init_clock_ok t1 t2) as Hl0.
  split; [|split].
  - apply finalize_Forall; [|auto].
    eapply loop_emitted_events; [exact Hl0|exact Hloop|constructor].
  - destruct lines as [|l rest].
    + cbn in Hloop. inversion Hloop; subst st. reflexivity.
    + cbn [loop] in Hloop.
      destruct (step (init t1 t2) l) as [s1|] eqn:Hs; [|discriminate].
      cbn [bind] in Hloop.
      pose proof (step_clock_ok _ _ _ Hl0 Hs) as Hl1.
      pose proof (step_events _ _ _ Hl0 Hs) as He1.
      pose proof (loop_count rest s1 st Hl1 He1 Hloop) as Hc.
      pose proof (step_count _ _ _ Hl0 Hs) as Hc1.
      assert (events (current_matchup st) <> []) as Hev.
      { eapply loop_events; [exact Hl1|left; exact He1|exact Hloop]. }
      rewrite finalize_matchups.
      destruct (events (current_matchup st)) eqn:E; [congruence|].
      rewrite length_app. cbn [List.length].
      unfold count_subs, discarded in *. cbn [filter].
      cbn [init current_matchup events matchups List.length] in Hc1.
      destruct (Py.contains marker l); cbn [List.length]; lia.
  - intros l rest -> Hsub. cbn [loop] in Hloop.
    destruct (step (init t1 t2) l) as [s1|] eqn:Hs; [|discriminate].
    exists s1. split; [reflexivity|].
    destruct (step_inv _ _ _ Hl0 Hs)
      as (st1 & (Hm & _ & He & _) & [[E _]|[_ (p' & _ & _ & ->)]]);
      [congruence|].
    cbn [matchups current_matchup events matchup_duration].
    rewrite finalize_matchups, He, Hm. repeat split.
Qed.

(** C6, on a substitution in the very first line. *)
Lemma C6_no_empty_matchup_witness :
  exists ms,
    segment team1_lineup team2_lineup [lively_for_gafford; tatum_scores]
    = Ok ms
    /\ Forall (fun m => events m <> []) ms
    /\ (List.length ms + 1 = 1 + 1)%nat.
Proof.
  eexists. split; [vm_compute; reflexivity|].
  destruct (C6_no_empty_matchup team1_lineup team2_lineup
              [lively_for_gafford; tatum_scores] _ eq_refl) as (H1 & H2 & _).
  split; [exact H1|exact H2].
Defined.

(** ** An exiting player nobody fields *)

(** C8, an input on which the sentence of the specification fails: the
    exiting player of
    this substitution line is in neither roster, and the line makes the
    iteration raise instead of leaving the rosters alone. *)
Lemma C8_unknown_exiting_player_raises :
  Py.contains marker no_dash_stranger = true
  /\ Py.index (Py.split spaced_marker no_dash_stranger) 1 = Ok "Alice"
  /\ Py.mem "Alice" team1_lineup = false
  /\ Py.mem "Alice" team2_lineup = false
  /\ step (init team1_lineup team2_lineup) no_dash_stranger
     = Raise IndexError.
Proof. repeat split; vm_compute; reflexivity. Qed.

(** C8, as the code has it: in any state the segmenter reaches, a
    substitution line with a [" - "] in front of the marker whose exiting
    player is in neither roster goes through, leaves both rosters as they
    were, and is in the events of the matchup it opens. *)
Theorem C8_unknown_exiting_player_tolerated (t1 t2 : list string)
    (pre : list string) (st : state) (line exiting : string) :
  loop (init t1 t2) pre = Ok st ->
  Py.contains marker line = true ->
  Py.contains dash (before spaced_marker line) = true ->
  Py.index (Py.split spaced_marker line) 1 = Ok exiting ->
  Py.mem exiting (team1 (players (current_matchup st))) = false ->
  Py.mem exiting (team2 (players (current_matchup st))) = false ->
  exists st',
    step st line = Ok st'
    /\ players (current_matchup st') = players (current_matchup st)
    /\ hd_error (events (current_matchup st')) = Some line
    /\ In line (events (current_matchup st')).
Proof.
  intros Hloop Hsub Hdash Hex H1 H2.
  pose proof (loop_clock_ok pre _ _ (init_clock_ok t1 t2) Hloop) as Hl.
  destruct (step_cases st line Hl) as (st1 & _ & Hcase).
  rewrite Hsub in Hcase.
  assert (Py.contains spaced_marker line = true) as Hsp.
  { pose proof (index_one_split spaced_marker line ltac:(discriminate)) as H.
    destruct (Py.contains spaced_marker line); [reflexivity|congruence]. }
  rewrite Hsp, Hdash in Hcase. cbn [andb] in Hcase.
  destruct Hcase as (entering & exiting' & p' & _ & Hex' & Hs & _ & _ & ->).
  assert (exiting' = exiting) as -> by congruence.
  rewrite (substitute_absent entering exiting _ H1 H2) in Hs.
  inversion Hs; subst p'.
  eexists. split; [reflexivity|].
  cbn [current_matchup players events hd_error]. repeat split. now left.
Qed.

(** C8, on a stranger leaving in the first line. *)
Lemma C8_unknown_exiting_player_tolerated_witness :
  exists st',
    step (init team1_lineup team2_lineup)
      "5:43 - Bob enters the game for Alice" = Ok st'
    /\ players (current_matchup st') = mkPlayers team1_lineup team2_lineup
    /\ In "5:43 - Bob enters the game for Alice"
         (events (current_matchup st')).
Proof.
  destruct (C8_unknown_exiting_player_tolerated team1_lineup team2_lineup []
              (init team1_lineup team2_lineup)
              "5:43 - Bob enters the game for Alice" "Alice"
              eq_refl eq_refl eq_refl eq_refl eq_refl eq_refl)
    as (st' & Hs & Hp & _ & Hin).
  exists st'. repeat split; assumption.
Defined.

(** ** Durations against the clock *)

Lemma sum_durations_app (xs ys : list matchup) :
  sum_durations (xs ++ ys) = sum_durations xs + sum_durations ys.
Proof.
  unfold sum_durations. induction xs as [|x xs IH]; cbn; [reflexivity|].
  fold (sum_durations (xs ++ ys)) in *. cbn in IH. lia.
Qed.

Lemma total_finalize (st : state) :
  events (current_matchup st) <> [] ->
  sum_durations (matchups (finalize_matchup st)) = total st.
Proof.
  intros Hne. rewrite finalize_matchups.
  destruct (events (current_matchup st)); [congruence|].
  rewrite sum_durations_app. unfold total. cbn. lia.
Qed.

(** The clock statement keeps the potential: what it adds to the duration
    is what the clock loses, rollover included. *)
Lemma clock_step_potential (line : string) (st st1 : state) :
  clock_step line st st1 ->
  forall rest, potential st1 rest = potential st (line :: rest).
Proof.
  intros (Hm & _ & _ & _ & Hs & Hd) rest.
  unfold potential, total. cbn [rollovers]. rewrite Hm, Hs, Hd.
  destruct (reading line) as [t|]; [|lia].
  unfold adjust. destruct (secs_of (last_time st) - t <? 0); lia.
Qed.

(** The rest of the iteration keeps the total and the clock, unless it
    drops an open matchup without events. *)
Lemma step_potential (st st' : state) (line : string) :
  clock_ok (last_time st) = true ->
  events (current_matchup st) <> [] ->
  step st line = Ok st' ->
  forall rest, potential st' rest = potential st (line :: rest).
Proof.
  intros Hl Hne Hstep rest.
  destruct (step_inv st st' line Hl Hstep) as (st1 & Hcs & Hcase).
  rewrite <- (clock_step_potential line st st1 Hcs rest).
  destruct Hcs as (_ & _ & He & _).
  destruct Hcase as [[_ ->]|[_ (p' & _ & _ & ->)]].
  - reflexivity.
  - unfold potential, total.
    cbn [matchups current_matchup last_time matchup_duration].
    rewrite total_finalize by congruence. unfold total. lia.
Qed.

Lemma loop_potential (lines : list string) :
  forall st st',
    clock_ok (last_time st) = true ->
    events (current_matchup st) <> [] ->
    loop st lines = Ok st' ->
    potential st' [] = potential st lines.
Proof.
  induction lines as [|l lines IH]; intros st st' Hl Hne; cbn [loop].
  - intros H; inversion H; subst. reflexivity.
  - destruct (step st l) as [s1|] eqn:Hs; cbn [bind]; [|discriminate].
    intros Hloop.
    rewrite (IH s1 st' (step_clock_ok _ _ _ Hl Hs) (step_events _ _ _ Hl Hs)
               Hloop).
    now apply step_potential.
Qed.

(** The first iteration: a substitution there drops the initial matchup,
    and with it the seconds the clock statement has just put on it. *)
Lemma first_step_potential (t1 t2 : list string) (l : string) (s1 : state) :
  step (init t1 t2) l = Ok s1 ->
  (Py.contains marker l = true ->
   forall t, reading l = Some t -> t <= 1440) ->
  forall rest, potential s1 rest <= potential (init t1 t2) (l :: rest).
Proof.
  intros Hs Hguard rest.
  destruct (step_inv _ _ _ (init_clock_ok t1 t2) Hs) as (st1 & Hcs & Hcase).
  rewrite <- (clock_step_potential l _ st1 Hcs rest).
  destruct Hcs as (Hm & _ & He & _ & Hsec & Hd).
  destruct Hcase as [[_ ->]|[Hsub (p' & _ & _ & ->)]].
  - apply Z.le_refl.
  - unfold potential, total.
    cbn [matchups current_matchup last_time matchup_duration].
    rewrite finalize_matchups, He, Hm. cbn [init events current_matchup].
    cbn [init matchups current_matchup matchup_duration last_time] in Hd.
    assert (0 <= matchup_duration (current_matchup st1)) as Hpos.
    { rewrite Hd. specialize (Hguard Hsub).
      destruct (reading l) as [t|]; [|lia].
      specialize (Hguard t eq_refl). unfold adjust.
      change (secs_of "12:00") with 720.
      destruct (720 - t <? 0) eqn:E; [lia|]. apply Z.ltb_ge in E. lia. }
    cbn [init matchups sum_durations fold_right]. lia.
Qed.

(** C9, an input on which the sentence of the specification fails: a
    substitution in the
    first line under the clock 99:00, then a line at 0:00. The two lines run
    through two periods, and the one matchup of the output lasts 5940
    seconds. *)
Lemma C9_late_clock_exceeds_bound :
  exists ms,
    segment team1_lineup team2_lineup late_clock = Ok ms
    /\ sum_durations ms = 5940
    /\ periods_represented late_clock = 2
    /\ List.length late_clock = 2%nat
    /\ ~ sum_durations ms <= 720 * periods_represented late_clock.
Proof.
  eexists. split; [vm_compute; reflexivity|].
  repeat split; try (vm_compute; reflexivity).
  vm_compute. intros H. apply H. reflexivity.
Qed.

(** C9, as the code has it: the periods represented being the first one and
    one more for each rollover the segmenter detects, the durations of the
    output sum to at most 720 times their number, provided the very first
    line is not a substitution line showing a clock above 24:00. *)
Theorem C9_durations_within_periods (t1 t2 : list string)
    (lines : list string) (ms : list matchup) :
  segment t1 t2 lines = Ok ms ->
  (forall l rest t,
      lines = l :: rest ->
      Py.contains marker l = true ->
      reading l = Some t ->
      t <= 1440) ->
  sum_durations ms <= 720 * periods_represented lines.
Proof.
  unfold segment. intros Hseg Hguard.
  destruct (loop (init t1 t2) lines) as [st|] eqn:Hloop; [|discriminate].
  cbn [bind] in Hseg. inversion Hseg; subst ms; clear Hseg.
  pose proof (init_clock_ok t1 t2) as Hl0.
  destruct lines as [|l rest].
  - cbn in Hloop. inversion Hloop; subst st. vm_compute. discriminate.
  - cbn [loop] in Hloop.
    destruct (step (init t1 t2) l) as [s1|] eqn:Hs; [|discriminate].
    cbn [bind] in Hloop.
    pose proof (step_clock_ok _ _ _ Hl0 Hs) as Hl1.
    pose proof (step_events _ _ _ Hl0 Hs) as He1.
    pose proof (loop_potential rest s1 st Hl1 He1 Hloop) as Hpot.
    pose proof (first_step_potential t1 t2 l s1 Hs
                  (fun Hsub t Hr => Hguard l rest t eq_refl Hsub Hr) rest)
      as Hfirst.
    pose proof (loop_clock_ok rest _ _ Hl1 Hloop) as Hl2.
    apply clock_ok_nonneg in Hl2.
    assert (events (current_matchup st) <> []) as Hev.
    { eapply loop_events; [exact Hl1|left; exact He1|exact Hloop]. }
    rewrite (total_finalize st Hev).
    unfold periods_represented.
    unfold potential in Hpot, Hfirst.
    cbn [rollovers] in Hpot.
    change (secs_of (last_time (init t1 t2))) with 720 in Hfirst.
    change (total (init t1 t2)) with 0 in Hfirst.
    lia.
Qed.

(** C9, on a game that crosses one period boundary. *)
Lemma C9_durations_within_periods_witness :
  exists ms,
    segment team1_lineup team2_lineup
      [tip_off; "0:05 - Jaylen Brown makes 2-pt shot";
       "11:58 - Jrue Holiday defensive rebound"] = Ok ms
    /\ sum_durations ms <= 720 * 2.
Proof.
  eexists. split; [vm_compute; reflexivity|].
  refine (C9_durations_within_periods team1_lineup team2_lineup
            [tip_off; "0:05 - Jaylen Brown makes 2-pt shot";
             "11:58 - Jrue Holiday defensive rebound"] _ eq_refl _).
  intros l rest t E Hsub. inversion E; subst. vm_compute in Hsub.
  discriminate Hsub.
Defined.

(** ** Further properties of the segmenter *)

Lemma all_events_finalize (st : state) :
  flat_map events (matchups (finalize_matchup st)) = all_events st.
Proof.
  unfold all_events. rewrite finalize_matchups.
  destruct (events (current_matchup st)) eqn:E.
  - now rewrite app_nil_r.
  - rewrite flat_map_app. cbn [flat_map]. now rewrite E, app_nil_r.
Qed.

Lemma step_all_events (st st' : state) (line : string) :
  clock_ok (last_time st) = true ->
  step st line = Ok st' ->
  all_events st' = (all_events st ++ recorded [line])%list.
Proof.
  intros Hl Hstep.
  destruct (step_inv st st' line Hl Hstep)
    as (st1 & (Hm & _ & He & _) & [[Hsub ->]|[Hsub (p' & _ & _ & ->)]]);
    unfold recorded; cbn [flat_map]; rewrite Hsub, app_nil_r.
  - unfold all_events. cbn [append_event matchups current_matchup events].
    now rewrite Hm, He, app_assoc.
  - unfold all_events at 1. cbn [matchups current_matchup events].
    rewrite all_events_finalize. unfold all_events. now rewrite Hm, He.
Qed.

Lemma loop_all_events (lines : list string) :
  forall st st',
    clock_ok (last_time st) = true ->
    loop st lines = Ok st' ->
    all_events st' = (all_events st ++ recorded lines)%list.
Proof.
  induction lines as [|l lines IH]; intros st st' Hl; cbn [loop].
  - intros H; inversion H; subst. unfold recorded. cbn. now rewrite app_nil_r.
  - destruct (step st l) as [s1|] eqn:Hs; cbn [bind]; [|discriminate].
    intros Hloop.
    rewrite (IH s1 st' (step_clock_ok _ _ _ Hl Hs) Hloop).
    rewrite (step_all_events st s1 l Hl Hs).
    unfold recorded. cbn [flat_map]. now rewrite app_nil_r, app_assoc.
Qed.

(** X1: no line is lost and none is moved. Read one matchup after the
    other, the events of the output are the input lines in their order,
    each substitution line standing twice and every other line, blank ones
    included, once. *)
Theorem X1_events_are_the_lines (t1 t2 : list string) (lines : list string)
    (ms : list matchup) :
  segment t1 t2 lines = Ok ms ->
  flat_map events ms = recorded lines.
Proof.
  unfold segment. intros Hseg.
  destruct (loop (init t1 t2) lines) as [st|] eqn:Hloop; [|discriminate].
  cbn [bind] in Hseg. inversion Hseg; subst ms.
  rewrite all_events_finalize.
  now rewrite (loop_all_events lines _ _ (init_clock_ok t1 t2) Hloop).
Qed.

(** X1, on the end-to-end scenario. *)
Lemma X1_events_are_the_lines_witness :
  exists ms,
    parse_play_by_play (unlines scenario) = Ok ms
    /\ flat_map events ms
       = [tip_off; missed_three; doncic_for_irving; doncic_for_irving;
          tatum_scores].
Proof.
  eexists. split; [vm_compute; reflexivity|].
  exact (X1_events_are_the_lines team1_lineup team2_lineup scenario _ eq_refl).
Defined.

Lemma step_last_time (st st' : state) (line : string) :
  clock_ok (last_time st) = true ->
  step st line = Ok st' ->
  secs_of (last_time st')
  = match reading line with
    | Some t => t
    | None => secs_of (last_time st)
    end.
Proof.
  intros Hl Hstep.
  destruct (step_inv st st' line Hl Hstep)
    as (st1 & (_ & _ & _ & _ & Hs & _) & [[_ ->]|[_ (p' & _ & _ & ->)]]);
    exact Hs.
Qed.

Lemma loop_final_clock (lines : list string) :
  forall st st',
    clock_ok (last_time st) = true ->
    loop st lines = Ok st' ->
    secs_of (last_time st') = final_clock (secs_of (last_time st)) lines.
Proof.
  induction lines as [|l lines IH]; intros st st' Hl; cbn [loop final_clock].
  - intros H; inversion H; subst. reflexivity.
  - destruct (step st l) as [s1|] eqn:Hs; cbn [bind]; [|discriminate].
    intros Hloop.
    rewrite (IH s1 st' (step_clock_ok _ _ _ Hl Hs) Hloop).
    rewrite (step_last_time st s1 l Hl Hs).
    destruct (reading l); reflexivity.
Qed.

(** The first iteration, to the second: the potential goes down by what a
    substitution there drops with the initial matchup. *)
Lemma first_step_exact (t1 t2 : list string) (l : string) (s1 : state) :
  step (init t1 t2) l = Ok s1 ->
  forall rest,
    potential s1 rest
    = potential (init t1 t2) (l :: rest) - dropped (l :: rest).
Proof.
  intros Hs rest.
  destruct (step_inv _ _ _ (init_clock_ok t1 t2) Hs) as (st1 & Hcs & Hcase).
  rewrite <- (clock_step_potential l _ st1 Hcs rest).
  destruct Hcs as (Hm & _ & He & _ & Hsec & Hd).
  unfold dropped.
  destruct Hcase as [[-> ->]|[-> (p' & _ & _ & ->)]].
  - unfold potential, total.
    cbn [append_event matchups current_matchup last_time matchup_duration].
    lia.
  - unfold potential, total.
    cbn [matchups current_matchup last_time matchup_duration].
    rewrite finalize_matchups, He, Hm. cbn [init events current_matchup].
    cbn [init matchups current_matchup matchup_duration last_time] in Hd.
    change (secs_of "12:00") with 720 in Hd.
    cbn [init matchups sum_durations fold_right]. lia.
Qed.

(** The durations of the output against the clock, to the second. *)
Lemma segment_sum (t1 t2 : list string) (lines : list string)
    (ms : list matchup) :
  segment t1 t2 lines = Ok ms ->
  sum_durations ms
  = 720 * periods_represented lines - final_clock 720 lines - dropped lines.
Proof.
  unfold segment. intros Hseg.
  destruct (loop (init t1 t2) lines) as [st|] eqn:Hloop; [|discriminate].
  cbn [bind] in Hseg. inversion Hseg; subst ms; clear Hseg.
  pose proof (init_clock_ok t1 t2) as Hl0.
  destruct lines as [|l rest].
  - cbn in Hloop. inversion Hloop; subst st. reflexivity.
  - cbn [loop] in Hloop.
    destruct (step (init t1 t2) l) as [s1|] eqn:Hs; [|discriminate].
    cbn [bind] in Hloop.
    pose proof (step_clock_ok _ _ _ Hl0 Hs) as Hl1.
    pose proof (step_events _ _ _ Hl0 Hs) as He1.
    pose proof (loop_potential rest s1 st Hl1 He1 Hloop) as Hpot.
    pose proof (first_step_exact t1 t2 l s1 Hs rest) as Hfirst.
    pose proof (loop_final_clock rest s1 st Hl1 Hloop) as Hfin.
    pose proof (step_last_time _ _ _ Hl0 Hs) as Hsec.
    assert (events (current_matchup st) <> []) as Hev.
    { eapply loop_events; [exact Hl1|left; exact He1|exact Hloop]. }
    rewrite (total_finalize st Hev).
    unfold periods_represented. cbn [final_clock].
    unfold potential in Hpot, Hfirst. cbn [rollovers] in Hpot.
    change (secs_of (last_time (init t1 t2))) with 720 in Hfirst, Hsec.
    change (total (init t1 t2)) with 0 in Hfirst.
    rewrite Hsec in Hfin.
    destruct (reading l); lia.
Qed.

(** X2: the durations of the output add up to the distance the clock has
    travelled: 720 seconds for each period represented, less what is left
    on the clock after the last line, less the seconds a substitution in
    the very first line puts on the initial matchup, which is dropped. *)
Theorem X2_durations_to_the_second (t1 t2 : list string)
    (lines : list string) (ms : list matchup) :
  segment t1 t2 lines = Ok ms ->
  sum_durations ms
  = 720 * periods_represented lines - final_clock 720 lines - dropped lines.
Proof. apply segment_sum. Qed.

(** X2, on the end-to-end scenario: 240 seconds from 12:00 to 8:00. *)
Lemma X2_durations_to_the_second_witness :
  exists ms,
    parse_play_by_play (unlines scenario) = Ok ms
    /\ sum_durations ms = 720 * 1 - 480 - 0.
Proof.
  eexists. split; [vm_compute; reflexivity|].
  exact (X2_durations_to_the_second team1_lineup team2_lineup scenario _
           eq_refl).
Defined.

(** Under clocks of at most 12:00 an iteration adds no negative time. *)
Lemma step_nonneg (st st' : state) (line : string) :
  clock_ok (last_time st) = true ->
  step st line = Ok st' ->
  (forall t, reading line = Some t -> t <= 720) ->
  secs_of (last_time st) <= 720 ->
  0 <= matchup_duration (current_matchup st) ->
  Forall (fun m => 0 <= matchup_duration m) (matchups st) ->
  secs_of (last_time st') <= 720
  /\ 0 <= matchup_duration (current_matchup st')
  /\ Forall (fun m => 0 <= matchup_duration m) (matchups st').
Proof.
  intros Hl Hstep Hr Hlast Hcur Hms.
  pose proof (clock_ok_nonneg _ Hl) as Hl0.
  destruct (step_inv st st' line Hl Hstep)
    as (st1 & (Hm & _ & _ & Hk & Hs & Hd) & Hcase).
  assert (secs_of (last_time st1) <= 720
          /\ 0 <= matchup_duration (current_matchup st1)) as [H1 H2].
  { rewrite Hs, Hd. destruct (reading line) as [t|]; [|lia].
    specialize (Hr t eq_refl). pose proof (clock_ok_nonneg _ Hk) as Ht.
    rewrite Hs in Ht. unfold adjust.
    destruct (secs_of (last_time st) - t <? 0) eqn:E; [lia|].
    apply Z.ltb_ge in E. lia. }
  destruct Hcase as [[_ ->]|[_ (p' & _ & _ & ->)]];
    cbn [append_event matchups current_matchup last_time matchup_duration].
  - rewrite Hm. auto.
  - repeat split; [assumption|lia|].
    apply finalize_Forall; [now rewrite Hm|auto].
Qed.

Lemma loop_nonneg (lines : list string) :
  forall st st',
    clock_ok (last_time st) = true ->
    loop st lines = Ok st' ->
    (forall l t, In l lines -> reading l = Some t -> t <= 720) ->
    secs_of (last_time st) <= 720 ->
    0 <= matchup_duration (current_matchup st) ->
    Forall (fun m => 0 <= matchup_duration m) (matchups st) ->
    0 <= matchup_duration (current_matchup st')
    /\ Forall (fun m => 0 <= matchup_duration m) (matchups st').
Proof.
  induction lines as [|l lines IH]; intros st st' Hl; cbn [loop].
  - intros H; inversion H; subst; auto.
  - destruct (step st l) as [s1|] eqn:Hs; cbn [bind]; [|discriminate].
    intros Hloop Hr Hlast Hcur Hms.
    destruct (step_nonneg st s1 l Hl Hs) as (H1 & H2 & H3); auto.
    { intros t. apply Hr. now left. }
    apply (IH s1 st'); auto.
    + eapply step_clock_ok; eassumption.
    + intros l' t Hin. apply Hr. now right.
Qed.

(** X3: when no line shows a clock above 12:00, no matchup of the output
    has a negative duration. *)
Theorem X3_durations_not_negative (t1 t2 : list string)
    (lines : list string) (ms : list matchup) :
  segment t1 t2 lines = Ok ms ->
  (forall l t, In l lines -> reading l = Some t -> t <= 720) ->
  Forall (fun m => 0 <= matchup_duration m) ms.
Proof.
  unfold segment. intros Hseg Hr.
  destruct (loop (init t1 t2) lines) as [st|] eqn:Hloop; [|discriminate].
  cbn [bind] in Hseg. inversion Hseg; subst ms; clear Hseg.
  destruct (loop_nonneg lines _ _ (init_clock_ok t1 t2) Hloop Hr)
    as [H1 H2].
  - vm_compute. discriminate.
  - cbn. lia.
  - constructor.
  - apply finalize_Forall; auto.
Qed.

(** X3, on the end-to-end scenario. *)
Lemma X3_durations_not_negative_witness :
  exists ms,
    parse_play_by_play (unlines scenario) = Ok ms
    /\ Forall (fun m => 0 <= matchup_duration m) ms.
Proof.
  eexists. split; [vm_compute; reflexivity|].
  refine (X3_durations_not_negative team1_lineup team2_lineup scenario _
            eq_refl _).
  intros l t [<-|[<-|[<-|[<-|[]]]]] H; vm_compute in H; inversion H;
    vm_compute; discriminate.
Defined.

(** Without a substitution line nothing is emitted before the end and the
    rosters stay. *)
Lemma loop_no_substitution (lines : list string) :
  forall st st',
    clock_ok (last_time st) = true ->
    forallb (fun l => negb (Py.contains marker l)) lines = true ->
    loop st lines = Ok st' ->
    matchups st' = matchups st
    /\ players (current_matchup st') = players (current_matchup st).
Proof.
  induction lines as [|l lines IH]; intros st st' Hl Hno; cbn [loop].
  - intros H; inversion H; subst; auto.
  - cbn [forallb] in Hno. apply andb_prop in Hno as [H1 H2].
    apply negb_true_iff in H1.
    destruct (step st l) as [s1|] eqn:Hs; cbn [bind]; [|discriminate].
    intros Hloop.
    destruct (IH s1 st' (step_clock_ok _ _ _ Hl Hs) H2 Hloop) as [-> ->].
    destruct (step_inv st s1 l Hl Hs)
      as (st1 & (Hm & Hp & _) & [[_ ->]|[Hsub _]]); [|congruence].
    cbn [append_event matchups current_matchup players]. auto.
Qed.

Lemma no_marker_sub_ok (lines : list string) :
  forallb (fun l => negb (Py.contains marker l)) lines = true ->
  forallb sub_ok lines = true.
Proof.
  induction lines as [|l lines IH]; cbn [forallb]; [reflexivity|].
  intros H. apply andb_prop in H as [H1 H2].
  unfold sub_ok at 1. rewrite H1. cbn. auto.
Qed.

Lemma recorded_no_marker (lines : list string) :
  forallb (fun l => negb (Py.contains marker l)) lines = true ->
  recorded lines = lines.
Proof.
  unfold recorded.
  induction lines as [|l lines IH]; cbn [forallb flat_map]; [reflexivity|].
  intros H. apply andb_prop in H as [H1 H2]. apply negb_true_iff in H1.
  rewrite H1, (IH H2). reflexivity.
Qed.

(** X4: substitutions alone cut the game. On at least one line and no
    substitution line, whatever the lines say, the segmenter returns one
    single matchup: the starting rosters, all the lines as its events, and
    the whole travel of the clock as its duration. *)
Theorem X4_one_matchup_without_substitution (t1 t2 : list string)
    (lines : list string) :
  lines <> [] ->
  forallb (fun l => negb (Py.contains marker l)) lines = true ->
  segment t1 t2 lines
  = Ok [mkMatchup (mkPlayers t1 t2) lines
          (720 * periods_represented lines - final_clock 720 lines)].
Proof.
  intros Hne Hno.
  destruct (segment_snoc t1 t2 lines Hne (no_marker_sub_ok lines Hno))
    as (st & Hloop & Hev & Hseg).
  pose proof (segment_sum t1 t2 lines _ Hseg) as Hsum.
  pose proof (init_clock_ok t1 t2) as Hl0.
  destruct (loop_no_substitution lines _ _ Hl0 Hno Hloop) as [Hm Hp].
  pose proof (loop_all_events lines _ _ Hl0 Hloop) as Hall.
  rewrite (recorded_no_marker lines Hno) in Hall.
  unfold all_events in Hall. rewrite Hm in Hall, Hseg, Hsum.
  cbn [init matchups current_matchup players events app flat_map
       sum_durations fold_right] in Hall, Hseg, Hsum, Hp.
  rewrite Hseg. do 2 f_equal.
  destruct (current_matchup st) as [p ev d].
  cbn [players events matchup_duration] in Hall, Hp, Hsum.
  subst p ev. f_equal.
  assert (dropped lines = 0) as Hdrop.
  { destruct lines as [|l rest]; [reflexivity|].
    cbn [forallb] in Hno. apply andb_prop in Hno as [H1 _].
    apply negb_true_iff in H1. unfold dropped. now rewrite H1. }
  lia.
Qed.

(** X4, on a first quarter without a substitution. *)
Lemma X4_one_matchup_without_substitution_witness :
  segment team1_lineup team2_lineup [tip_off; missed_three; tatum_scores]
  = Ok [mkMatchup (mkPlayers team1_lineup team2_lineup)
          [tip_off; missed_three; tatum_scores] 240].
Proof.
  exact (X4_one_matchup_without_substitution team1_lineup team2_lineup
           [tip_off; missed_three; tatum_scores]
           ltac:(discriminate) eq_refl).
Defined.

(** ** Strings: concatenation against splitting and stripping *)

Lemma sapp_assoc (a b c : string) : (a ++ b) ++ c = a ++ (b ++ c).
Proof. induction a as [|x a IH]; cbn; [reflexivity|now rewrite IH]. Qed.

Lemma sapp_nil_r (a : string) : a ++ "" = a.
Proof. induction a as [|x a IH]; cbn; [reflexivity|now rewrite IH]. Qed.

Lemma slength_app (a b : string) :
  String.length (a ++ b) = (String.length a + String.length b)%nat.
Proof. induction a as [|x a IH]; cbn; [reflexivity|now rewrite IH]. Qed.

Lemma prefix_self (sep y : string) : String.prefix sep (sep ++ y) = true.
Proof.
  induction sep as [|c sep IH]; cbn; [now destruct y|].
  destruct (ascii_dec c c); [exact IH|congruence].
Qed.

Lemma prefix_app_long (sep : string) :
  forall u v,
    (String.length sep <= String.length u)%nat ->
    String.prefix sep (u ++ v) = String.prefix sep u.
Proof.
  induction sep as [|c sep IH]; intros u v Hlen;
    [destruct u; cbn; [now destruct v|reflexivity]|].
  destruct u as [|d u]; cbn in Hlen; [lia|].
  cbn. destruct (ascii_dec c d); [|reflexivity].
  apply IH. lia.
Qed.

Lemma but_last_snoc (s : string) :
  s <> "" ->
  exists c, s = but_last s ++ String c ""
            /\ String.length (but_last s) = Nat.pred (String.length s).
Proof.
  induction s as [|x s IH]; [congruence|]. intros _.
  destruct s as [|y s].
  - exists x. split; reflexivity.
  - destruct IH as (c & Hc & Hl); [discriminate|].
    exists c.
    change (but_last (String x (String y s)))
      with (String x (but_last (String y s))).
    split.
    + cbn [String.append]. now rewrite <- Hc.
    + cbn [String.length] in *. now rewrite Hl.
Qed.

Lemma split_go_skip (sep u y : string) :
  Py.split_go sep (String.length u) (u ++ y) = Py.split_go sep 0 y.
Proof. induction u as [|c u IH]; cbn; [reflexivity|exact IH]. Qed.

(** Splitting at the first separator, when there is none before it. *)
Lemma split_concat (sep x y : string) :
  sep <> "" ->
  Py.contains sep (x ++ but_last sep) = false ->
  Py.split sep (x ++ sep ++ y) = x :: Py.split sep y.
Proof.
  intros Hsep. unfold Py.split.
  induction x as [|c x IH]; intros Hno.
  - destruct sep as [|a sep]; [congruence|].
    cbn [String.append Py.split_go].
    pose proof (prefix_self (String a sep) y) as Hp.
    cbn [String.append] in Hp. rewrite Hp.
    cbn [String.length Nat.pred]. now rewrite split_go_skip.
  - cbn [String.append Py.contains] in Hno.
    apply orb_false_iff in Hno as [Hp Hrest].
    cbn [String.append Py.split_go].
    destruct (but_last_snoc sep Hsep) as (z & Hz & Hlen).
    assert (String.prefix sep (String c (x ++ sep ++ y)) = false) as ->.
    { rewrite Hz at 2. rewrite sapp_assoc, <- sapp_assoc.
      change (String c ((x ++ but_last sep) ++ String z "" ++ y))
        with (String c (x ++ but_last sep) ++ (String z "" ++ y)).
      rewrite prefix_app_long; [exact Hp|].
      cbn [String.length]. rewrite slength_app, Hlen. lia. }
    rewrite (IH Hrest). reflexivity.
Qed.

Lemma before_none (sep s : string) :
  Py.contains sep s = false -> before sep s = s.
Proof.
  induction s as [|c s IH]; [reflexivity|].
  cbn [Py.contains before]. intros H. apply orb_false_iff in H as [-> H].
  now rewrite (IH H).
Qed.

Lemma contains_app_l (sub x s : string) :
  Py.contains sub s = true -> Py.contains sub (x ++ s) = true.
Proof.
  intros H. induction x as [|c x IH]; [exact H|].
  cbn [String.append Py.contains]. rewrite IH. apply orb_true_r.
Qed.

Lemma contains_prefix (sub s : string) :
  String.prefix sub s = true -> Py.contains sub s = true.
Proof. intros H. destruct s; cbn [Py.contains]; rewrite H; reflexivity. Qed.

(** ** Who leaves and who enters *)

(** X5: a substitution changes one side only, [team1] when it fields the
    exiting name and else [team2] when it does: the first occurrence of the
    exiting name goes, the others keep their order, the entering name comes
    last. When neither side fields the exiting name both stay as they are.
    Whether the entering name is already fielded is not looked at. *)
Theorem X5_one_out_one_in (entering exiting : string) (p : players_t) :
  (Py.mem exiting (team1 p) = true ->
   exists a b,
     team1 p = (a ++ exiting :: b)%list /\ ~ In exiting a
     /\ substitute entering exiting p
        = Ok (mkPlayers (a ++ b ++ [entering]) (team2 p)))
  /\ (Py.mem exiting (team1 p) = false ->
      Py.mem exiting (team2 p) = true ->
      exists a b,
        team2 p = (a ++ exiting :: b)%list /\ ~ In exiting a
        /\ substitute entering exiting p
           = Ok (mkPlayers (team1 p) (a ++ b ++ [entering])))
  /\ (Py.mem exiting (team1 p) = false ->
      Py.mem exiting (team2 p) = false ->
      substitute entering exiting p = Ok p).
Proof.
  unfold substitute. repeat split.
  - intros H1. rewrite H1.
    destruct (remove_first _ _ H1) as (a & b & Hl & Hna & ->).
    exists a, b. cbn [bind]. now rewrite <- app_assoc.
  - intros H1 H2. rewrite H1, H2.
    destruct (remove_first _ _ H2) as (a & b & Hl & Hna & ->).
    exists a, b. cbn [bind]. now rewrite <- app_assoc.
  - intros H1 H2. now rewrite H1, H2.
Qed.

(** The substitution branch on a line of the scraper's make. *)
Lemma handle_substitution_entry (t a b : string) (st : state) :
  Py.contains dash (t ++ " -") = false ->
  Py.contains dash a = false ->
  Py.contains spaced_marker (t ++ " - " ++ a ++ " enters the game for")
  = false ->
  Py.contains spaced_marker b = false ->
  let line := entry t (a ++ " enters the game for " ++ b) in
  Py.contains marker line = true
  /\ Py.contains spaced_marker line = true
  /\ Py.contains dash (before spaced_marker line) = true
  /\ Py.index (Py.split dash (before spaced_marker line)) 1 = Ok a
  /\ Py.index (Py.split spaced_marker line) 1 = Ok b.
Proof.
  intros Ht Ha Hx Hb line.
  assert (line = (t ++ dash ++ a) ++ spaced_marker ++ b) as Hline.
  { unfold line, entry, dash, spaced_marker. now rewrite !sapp_assoc. }
  assert (Py.split spaced_marker line
          = (t ++ dash ++ a) :: Py.split spaced_marker b) as Hparts.
  { rewrite Hline. apply split_concat; [discriminate|].
    unfold dash. cbn [but_last spaced_marker]. now rewrite !sapp_assoc. }
  assert (before spaced_marker line = t ++ dash ++ a) as Hbefore.
  { pose proof (split_hd_before spaced_marker line) as H.
    rewrite Hparts in H. cbn [hd_error] in H. congruence. }
  assert (Py.split dash (t ++ dash ++ a) = t :: Py.split dash a) as Hd.
  { apply split_concat; [discriminate|exact Ht]. }
  assert (String.prefix marker (marker ++ " " ++ b) = true) as Hpm
      by apply prefix_self.
  repeat split.
  - replace line with ((t ++ dash ++ a ++ " ") ++ marker ++ " " ++ b).
    + apply contains_app_l, contains_prefix, Hpm.
    + rewrite Hline. unfold dash, spaced_marker, marker.
      rewrite !sapp_assoc. reflexivity.
  - rewrite Hline. apply contains_app_l, contains_prefix, prefix_self.
  - rewrite Hbefore. apply contains_app_l, contains_prefix, prefix_self.
  - rewrite Hbefore, Hd.
    pose proof (split_hd_before dash a) as H.
    rewrite (before_none dash a Ha) in H.
    unfold Py.index. cbn [nth_error].
    destruct (Py.split dash a); cbn [hd_error] in H;
      [discriminate|congruence].
  - rewrite Hparts.
    pose proof (split_hd_before spaced_marker b) as H.
    rewrite (before_none spaced_marker b Hb) in H.
    unfold Py.index. cbn [nth_error].
    destruct (Py.split spaced_marker b); cbn [hd_error] in H;
      [discriminate|congruence].
Qed.

(** X6: the names of a substitution line as the scraper writes it. On the
    line [t - a enters the game for b], where neither the time [t] nor the
    name [a] brings a [" - "] of its own and the marker between spaces
    occurs only where it was put, the iteration goes through in every state
    the segmenter reaches, with [a] as the entering player and [b] as the
    exiting player: the matchup it opens has the rosters [substitute a b]
    makes of the current ones and the line, twice, as its events. *)
Theorem X6_names_of_a_scraped_substitution (t1 t2 : list string)
    (pre : list string) (st : state) (t a b : string) :
  loop (init t1 t2) pre = Ok st ->
  Py.contains dash (t ++ " -") = false ->
  Py.contains dash a = false ->
  Py.contains spaced_marker (t ++ " - " ++ a ++ " enters the game for")
  = false ->
  Py.contains spaced_marker b = false ->
  let line := entry t (a ++ " enters the game for " ++ b) in
  exists st1 p',
    clock_step line st st1
    /\ substitute a b (players (current_matchup st)) = Ok p'
    /\ step st line
       = Ok (mkState (matchups (finalize_matchup st1))
               (mkMatchup p' [line; line] 0) (last_time st1)).
Proof.
  intros Hloop Ht Ha Hx Hb line.
  destruct (handle_substitution_entry t a b st Ht Ha Hx Hb)
    as (Hm & Hsp & Hd & Hen & Hex).
  fold line in Hm, Hsp, Hd, Hen, Hex.
  pose proof (loop_clock_ok pre _ _ (init_clock_ok t1 t2) Hloop) as Hl.
  destruct (step_cases st line Hl) as (st1 & Hcs & Hcase).
  rewrite Hm, Hsp, Hd in Hcase. cbn [andb] in Hcase.
  destruct Hcase as (en & ex & p' & Hen' & Hex' & Hs & _ & _ & Hstep).
  assert (en = a) as -> by congruence.
  assert (ex = b) as -> by congruence.
  exists st1, p'. auto.
Qed.

(** X6, on the substitution of the end-to-end scenario. *)
Lemma X6_names_of_a_scraped_substitution_witness :
  exists st',
    step (init team1_lineup team2_lineup) doncic_for_irving = Ok st'
    /\ players (current_matchup st')
       = mkPlayers
           ["Luka Doncic"; "Daniel Gafford"; "P.J. Washington";
            "Derrick Jones Jr."; "Luka Doncic"]
           team2_lineup.
Proof.
  destruct (X6_names_of_a_scraped_substitution team1_lineup team2_lineup []
              (init team1_lineup team2_lineup)
              "9:15" "Luka Doncic" "Kyrie Irving"
              eq_refl eq_refl eq_refl eq_refl eq_refl)
    as (st1 & p' & _ & Hs & Hstep).
  vm_compute in Hs. inversion Hs; subst p'; clear Hs.
  eexists. split; [exact Hstep|reflexivity].
Defined.

(** ** From the scraper's file to the lines of the segmenter *)

Lemma split_none (sep s : string) :
  Py.contains sep s = false -> Py.split sep s = [s].
Proof.
  unfold Py.split. induction s as [|c s IH]; [reflexivity|].
  cbn [Py.contains Py.split_go]. intros H.
  apply orb_false_iff in H as [-> H]. now rewrite (IH H).
Qed.

Lemma split_join (data : list string) :
  data <> [] ->
  forallb (fun e => negb (Py.contains newline e)) data = true ->
  Py.split newline (String.concat newline data) = data.
Proof.
  induction data as [|e data IH]; [congruence|]. intros _ Hall.
  cbn [forallb] in Hall. apply andb_prop in Hall as [He Hall].
  apply negb_true_iff in He.
  destruct data as [|x data].
  - cbn [String.concat]. now apply split_none.
  - change (String.concat newline (e :: x :: data))
      with (e ++ newline ++ String.concat newline (x :: data)).
    rewrite split_concat.
    + rewrite IH; [reflexivity|discriminate|assumption].
    + discriminate.
    + cbn [but_last newline]. now rewrite sapp_nil_r.
Qed.

Lemma written_join (data : list string) :
  data <> [] ->
  written data = String.concat newline data ++ newline.
Proof.
  induction data as [|e data IH]; [congruence|]. intros _.
  destruct data as [|x data].
  - cbn. now rewrite sapp_nil_r.
  - change (String.concat newline (e :: x :: data))
      with (e ++ newline ++ String.concat newline (x :: data)).
    cbn [written] in *. rewrite IH by discriminate.
    now rewrite !sapp_assoc.
Qed.

Lemma last_char_none (s : string) : last_char s = None -> s = "".
Proof.
  destruct s as [|c s]; [reflexivity|]. cbn.
  destruct (last_char s); discriminate.
Qed.

Lemma last_char_app (a b : string) :
  last_char (a ++ b)
  = match last_char b with
    | Some d => Some d
    | None => last_char a
    end.
Proof.
  induction a as [|c a IH]; cbn [String.append last_char].
  - now destruct (last_char b).
  - rewrite IH. destruct (last_char b); [reflexivity|].
    reflexivity.
Qed.

Lemma rstrip_clean (s : string) :
  ends_clean s = true -> Py.rstrip s = s.
Proof.
  unfold ends_clean. induction s as [|c s IH]; cbn [last_char Py.rstrip].
  - discriminate.
  - destruct (last_char s) as [d|] eqn:E.
    + intros H. rewrite (IH H). destruct s; [discriminate E|reflexivity].
    + apply last_char_none in E. subst s. cbn [Py.rstrip].
      intros H. apply negb_true_iff in H. now rewrite H.
Qed.

Lemma rstrip_app_blank (a b : string) :
  Py.rstrip b = "" -> Py.rstrip (a ++ b) = Py.rstrip a.
Proof.
  intros Hb. induction a as [|c a IH]; cbn [String.append Py.rstrip].
  - exact Hb.
  - now rewrite IH.
Qed.

Lemma join_starts_clean (data : list string) :
  starts_clean (hd "" data) = true ->
  starts_clean (String.concat newline data) = true.
Proof.
  destruct data as [|e [|x data]]; cbn [hd]; auto.
  change (String.concat newline (e :: x :: data))
    with (e ++ newline ++ String.concat newline (x :: data)).
  destruct e; [discriminate|auto].
Qed.

Lemma join_ends_clean (data : list string) :
  ends_clean (last data "") = true ->
  ends_clean (String.concat newline data) = true.
Proof.
  induction data as [|e data IH]; [auto|].
  destruct data as [|x data]; [auto|].
  intros H. specialize (IH H).
  change (String.concat newline (e :: x :: data))
    with (e ++ newline ++ String.concat newline (x :: data)).
  unfold ends_clean in *. rewrite !last_char_app.
  destruct (last_char (String.concat newline (x :: data))); [assumption|].
  discriminate.
Qed.

Lemma strip_clean_newline (s : string) :
  starts_clean s = true ->
  ends_clean s = true ->
  Py.strip (s ++ newline) = s.
Proof.
  intros Hs He. unfold Py.strip.
  destruct s as [|c s]; [discriminate|].
  cbn [String.append Py.lstrip]. cbn [starts_clean] in Hs.
  apply negb_true_iff in Hs. rewrite Hs.
  change (String c (s ++ newline)) with (String c s ++ newline).
  rewrite rstrip_app_blank by reflexivity. now apply rstrip_clean.
Qed.

(** X7: the file of the scraper gives the segmenter its entries back. When
    there is at least one entry, none holds a newline, the first begins and
    the last ends with a character that is no white space, the text
    [save_to_file] of scrape2.py writes, stripped and split as
    [parse_play_by_play] does, is the list of the entries; so parsing that
    text segments exactly those entries. *)
Theorem X7_written_lines_come_back (data : list string) :
  data <> [] ->
  forallb (fun e => negb (Py.contains newline e)) data = true ->
  starts_clean (hd "" data) = true ->
  ends_clean (last data "") = true ->
  Py.split newline (Py.strip (written data)) = data
  /\ parse_play_by_play (written data)
     = segment team1_lineup team2_lineup data.
Proof.
  intros Hne Hnl Hs He.
  assert (Py.split newline (Py.strip (written data)) = data) as H.
  { rewrite written_join by assumption.
    rewrite strip_clean_newline.
    - now apply split_join.
    - now apply join_starts_clean.
    - now apply join_ends_clean. }
  split; [exact H|]. unfold parse_play_by_play. now rewrite H.
Qed.

(** X7, on the end-to-end scenario. *)
Lemma X7_written_lines_come_back_witness :
  Py.split newline (Py.strip (written scenario)) = scenario.
Proof.
  exact (proj1 (X7_written_lines_come_back scenario ltac:(discriminate)
                  eq_refl eq_refl eq_refl)).
Defined.

(** ** The script of txt_to_json4.py *)

Lemma parse_raise (text : string) :
  forallb sub_ok (Py.split newline (Py.strip text)) = false ->
  parse_play_by_play text = Raise IndexError.
Proof.
  intros H. unfold parse_play_by_play, segment.
  now rewrite (loop_raise _ _ (init_clock_ok _ _) H).
Qed.

Section TxtMain.

Import Script.

Variable os : TxtToJson4.OS.

(** X8: a substitution line that cannot be taken apart stops the script
    without harm. When the input file is read and one of its lines makes
    the segmenter raise, [main] still ends normally: the IndexError is
    caught and printed after the processing message, and the disk is left
    as it was, the output file neither written nor opened. *)
Theorem X8_main_reports_the_bad_line (w : TxtToJson4.world os)
    (text : string) :
  TxtToJson4.read_text os TxtToJson4.input_file (TxtToJson4.disk os w)
  = Got text ->
  forallb sub_ok (Py.split newline (Py.strip text)) = false ->
  TxtToJson4.main os w
  = (Got tt,
     TxtToJson4.mkWorld os (TxtToJson4.disk os w)
       (TxtToJson4.out os w
        ++ [Say "Processing play-by-play data from play_by_play1.txt...";
            SayError "An error occurred: " (Seg IndexError)])).
Proof.
  intros Hread Hbad.
  unfold TxtToJson4.main, try_except, seq, TxtToJson4.read.
  rewrite Hread. unfold TxtToJson4.print at 1.
  rewrite (parse_raise text Hbad). cbn [of_result].
  unfold TxtToJson4.print. cbn [TxtToJson4.disk TxtToJson4.out].
  now rewrite <- app_assoc.
Qed.

(** X9: on a file all of whose substitution lines can be taken apart,
    [main] ends normally after one single change to the disk, the dump of
    what [parse_play_by_play] returns, at least one matchup, under
    parsed_matchups1.json; whether the dump went through or raised is the
    second and last thing it prints. *)
Theorem X9_main_dumps_the_matchups (w : TxtToJson4.world os)
    (text : string) :
  TxtToJson4.read_text os TxtToJson4.input_file (TxtToJson4.disk os w)
  = Got text ->
  forallb sub_ok (Py.split newline (Py.strip text)) = true ->
  exists ms m,
    parse_play_by_play text = Ok (ms ++ [m])%list
    /\ TxtToJson4.main os w
       = (Got tt,
          TxtToJson4.mkWorld os
            (snd (TxtToJson4.dump_json os "parsed_matchups1.json"
                    (ms ++ [m]) (TxtToJson4.disk os w)))
            (TxtToJson4.out os w
             ++ [Say "Processing play-by-play data from play_by_play1.txt...";
                 match fst (TxtToJson4.dump_json os "parsed_matchups1.json"
                              (ms ++ [m]) (TxtToJson4.disk os w)) with
                 | Got _ =>
                     Say "Parsed matchups successfully saved to parsed_matchups1.json"
                 | Threw e =>
                     SayError "An error occurred while saving data: " e
                 end])).
Proof.
  intros Hread Hok.
  destruct (segment_snoc team1_lineup team2_lineup
              (Py.split newline (Py.strip text))
              (split_go_nonempty _ _ _) Hok) as (st & _ & _ & Hseg).
  exists (matchups st), (current_matchup st).
  split; [exact Hseg|].
  unfold TxtToJson4.main, try_except, seq, TxtToJson4.read.
  rewrite Hread. unfold TxtToJson4.print at 1.
  unfold parse_play_by_play. rewrite Hseg.
  cbn [of_result].
  unfold TxtToJson4.save_to_file, try_except, seq, TxtToJson4.dump,
    TxtToJson4.print.
  cbn [TxtToJson4.disk TxtToJson4.out].
  change TxtToJson4.output_file with "parsed_matchups1.json".
  destruct (TxtToJson4.dump_json os "parsed_matchups1.json"
              (matchups st ++ [current_matchup st]) (TxtToJson4.disk os w))
    as [[[]|e] d]; cbn [fst snd TxtToJson4.disk TxtToJson4.out];
    now rewrite <- app_assoc.
Qed.

End TxtMain.

(** X8, on a file whose only line is a substitution without [" - "]. *)
Lemma X8_main_reports_the_bad_line_witness :
  TxtToJson4.main read_only_os (TxtToJson4.mkWorld read_only_os no_dash [])
  = (Script.Got tt,
     TxtToJson4.mkWorld read_only_os no_dash
       [Script.Say "Processing play-by-play data from play_by_play1.txt...";
        Script.SayError "An error occurred: " (Script.Seg IndexError)]).
Proof.
  exact (X8_main_reports_the_bad_line read_only_os
           (TxtToJson4.mkWorld read_only_os no_dash []) no_dash
           eq_refl eq_refl).
Defined.

(** X9, on the end-to-end scenario and a disk that refuses the dump. *)
Lemma X9_main_dumps_the_matchups_witness :
  TxtToJson4.main read_only_os
    (TxtToJson4.mkWorld read_only_os (unlines scenario) [])
  = (Script.Got tt,
     TxtToJson4.mkWorld read_only_os (unlines scenario)
       [Script.Say "Processing play-by-play data from play_by_play1.txt...";
        Script.SayError "An error occurred while saving data: "
          (Script.Ext "Permission denied")]).
Proof.
  destruct (X9_main_dumps_the_matchups read_only_os
              (TxtToJson4.mkWorld read_only_os (unlines scenario) [])
              (unlines scenario) eq_refl eq_refl)
    as (ms & m & _ & Hmain).
  exact Hmain.
Defined.

(** ** The scraper *)

Section Scraper.

Import Script.

Variable env : Scrape2.Env.

Lemma seq_got {W A B : Type} (c : io W A) (k : A -> io W B) (w w' : W)
    (b : B) :
  seq c k w = (Got b, w') ->
  exists a w1, c w = (Got a, w1) /\ k a w1 = (Got b, w').
Proof.
  unfold seq. destruct (c w) as [[a|r] w1]; [eauto|discriminate].
Qed.

Lemma clicked_app (xs ys : list (Scrape2.call (Scrape2.element env))) :
  Scrape2.clicked env (xs ++ ys)
  = (Scrape2.clicked env xs ++ Scrape2.clicked env ys)%list.
Proof.
  induction xs as [|x xs IH]; [reflexivity|].
  destruct x; cbn [app Scrape2.clicked]; rewrite IH; reflexivity.
Qed.

Lemma quiet_refl (w : Scrape2.world env) : Scrape2.quiet env w w.
Proof. repeat split. Qed.

Lemma quiet_trans (w1 w2 w3 : Scrape2.world env) :
  Scrape2.quiet env w1 w2 -> Scrape2.quiet env w2 w3 ->
  Scrape2.quiet env w1 w3.
Proof.
  unfold Scrape2.quiet. intros (A1 & A2 & A3) (B1 & B2 & B3).
  repeat split; congruence.
Qed.

Lemma look_quiet {A : Type} (c : Scrape2.call (Scrape2.element env))
    (op : Scrape2.browser env -> outcome A) (w : Scrape2.world env) :
  (forall e, c <> Scrape2.Click e) ->
  fst (Scrape2.look env c op w) = op (Scrape2.page env w)
  /\ Scrape2.quiet env w (snd (Scrape2.look env c op w))
  /\ Scrape2.out env (snd (Scrape2.look env c op w)) = Scrape2.out env w.
Proof.
  intros Hc. unfold Scrape2.look, Scrape2.quiet. cbn.
  repeat split. rewrite clicked_app. cbn.
  destruct c; try (now rewrite app_nil_r). now destruct (Hc e).
Qed.

Lemma print_quiet (p : printed) (w : Scrape2.world env) :
  Scrape2.print env p w
  = (Got tt,
     Scrape2.mkWorld env (Scrape2.page env w) (Scrape2.calls env w)
       (Scrape2.out env w ++ [p]) (Scrape2.disk env w)).
Proof. reflexivity. Qed.

(** The body of the row loop reads the row and changes nothing. *)
Lemma row_entry_spec (row : Scrape2.element env) (w : Scrape2.world env) :
  fst (Scrape2.row_entry env row w)
  = Scrape2.row_text env (Scrape2.page env w) row
  /\ Scrape2.quiet env w (snd (Scrape2.row_entry env row w))
  /\ Scrape2.out env (snd (Scrape2.row_entry env row w)) = Scrape2.out env w.
Proof.
  unfold Scrape2.row_entry, Scrape2.row_text, seq, Scrape2.look,
    Scrape2.quiet, ret.
  cbn [Scrape2.page Scrape2.calls Scrape2.out Scrape2.disk].
  destruct (Scrape2.find_element env row Scrape2.time_selector
              (Scrape2.page env w)) as [td|r];
    [|cbn; rewrite clicked_app; cbn; rewrite app_nil_r; auto].
  destruct (Scrape2.text env td (Scrape2.page env w)) as [t|r];
    [|cbn; rewrite !clicked_app; cbn; rewrite !app_nil_r; auto].
  destruct (Scrape2.find_element env row Scrape2.text_selector
              (Scrape2.page env w)) as [td2|r];
    [|cbn; rewrite !clicked_app; cbn; rewrite !app_nil_r; auto].
  destruct (Scrape2.text env td2 (Scrape2.page env w)) as [x|r];
    cbn; rewrite !clicked_app; cbn; rewrite !app_nil_r; auto.
Qed.

(** The row loop: the rows read before the first one that raises. *)
Lemma for_rows_spec (rows : list (Scrape2.element env)) :
  forall (acc : list string) (w : Scrape2.world env),
  exists good rest es,
    rows = (good ++ rest)%list
    /\ Forall2 (fun row e =>
                  Scrape2.row_text env (Scrape2.page env w) row = Got e)
         good es
    /\ fst (fst (Scrape2.for_rows env rows acc w)) = (acc ++ es)%list
    /\ Scrape2.quiet env w (snd (Scrape2.for_rows env rows acc w))
    /\ Scrape2.out env (snd (Scrape2.for_rows env rows acc w))
       = Scrape2.out env w
    /\ match rest with
       | [] => snd (fst (Scrape2.for_rows env rows acc w)) = Got tt
       | bad :: _ =>
           exists r,
             Scrape2.row_text env (Scrape2.page env w) bad = Threw r
             /\ snd (fst (Scrape2.for_rows env rows acc w)) = Threw r
       end.
Proof.
  induction rows as [|row rows IH]; intros acc w.
  - exists [], [], []. cbn. rewrite app_nil_r.
    repeat split; auto using quiet_refl.
  - cbn [Scrape2.for_rows].
    destruct (row_entry_spec row w) as (Hr & Hq & Ho).
    destruct (Scrape2.row_entry env row w) as [[e|r] w1]; cbn [fst snd] in *.
    + destruct (IH (acc ++ [e])%list w1)
        as (good & rest & es & -> & Hall & Hacc & Hq1 & Ho1 & Hrest).
      destruct Hq as (Hp & Hd & Hc).
      exists (row :: good), rest, (e :: es).
      split; [reflexivity|]. split.
      { constructor; [now symmetry|]. now rewrite <- Hp. }
      split; [now rewrite Hacc, <- app_assoc|].
      split; [eapply quiet_trans; [|exact Hq1]; repeat split; assumption|].
      split; [congruence|].
      destruct rest as [|bad rest']; [assumption|].
      destruct Hrest as (r & H1 & H2). exists r. now rewrite <- Hp.
    + exists [], (row :: rows), []. cbn [fst snd app].
      rewrite app_nil_r.
      repeat split; try apply Hq; auto.
      exists r. auto.
Qed.

(** X10: the table is read up to its first unreadable row. On a browser
    that finds the rows of the table, [extract_espn_data] returns, without
    ever raising, the entries [time - text] of the rows before the first
    row one of whose cells cannot be read; that row and all the rows after
    it are left out, readable or not, and its exception is printed. When
    every row can be read all the entries are returned and nothing is
    printed. The browser and the disk are left as they were. *)
Theorem X10_extract_stops_at_first_bad_row (selector : string)
    (w : Scrape2.world env) (rows : list (Scrape2.element env)) :
  Scrape2.find_elements env (selector ++ " > tr") (Scrape2.page env w)
  = Got rows ->
  exists good rest es w',
    rows = (good ++ rest)%list
    /\ Forall2 (fun row e =>
                  Scrape2.row_text env (Scrape2.page env w) row = Got e)
         good es
    /\ Scrape2.extract_espn_data env selector w = (Got es, w')
    /\ Scrape2.page env w' = Scrape2.page env w
    /\ Scrape2.disk env w' = Scrape2.disk env w
    /\ match rest with
       | [] => Scrape2.out env w' = Scrape2.out env w
       | bad :: _ =>
           exists r,
             Scrape2.row_text env (Scrape2.page env w) bad = Threw r
             /\ Scrape2.out env w'
                = (Scrape2.out env w
                   ++ [SayError Scrape2.extraction_error r])%list
       end.
Proof.
  intros Hrows. unfold Scrape2.extract_espn_data.
  destruct (look_quiet (Scrape2.FindElements (selector ++ " > tr"))
              (Scrape2.find_elements env (selector ++ " > tr")) w
              ltac:(discriminate)) as (Hl & Hq & Ho).
  destruct (Scrape2.look env _ _ w) as [found w1]; cbn [fst snd] in *.
  rewrite Hrows in Hl. subst found.
  destruct (for_rows_spec rows [] w1)
    as (good & rest & es & Heq & Hall & Hacc & Hq1 & Ho1 & Hrest).
  destruct Hq as (Hp & Hd & Hc). rewrite Hp in Hall, Hrest.
  destruct (Scrape2.for_rows env rows [] w1) as [[pbp res] w2];
    cbn [fst snd app] in *.
  subst pbp. destruct Hq1 as (Hp1 & Hd1 & Hc1).
  exists good, rest, es.
  destruct rest as [|bad rest'].
  - subst res. eexists. repeat split; try eassumption; congruence.
  - destruct Hrest as (r & Hbad & ->).
    eexists. split; [eassumption|]. split; [eassumption|].
    split; [reflexivity|]. cbn.
    repeat split; try congruence. exists r. split; [assumption|congruence].
Qed.

(** *** What the statements of the scraper leave untouched *)

Lemma quiet_keeps_disk {A : Type} (c : io (Scrape2.world env) A) :
  Scrape2.is_quiet env c -> Scrape2.keeps_disk env c.
Proof. intros H w. apply (H w). Qed.

Lemma seq_keeps_disk {A B : Type} (c : io (Scrape2.world env) A)
    (k : A -> io (Scrape2.world env) B) :
  Scrape2.keeps_disk env c ->
  (forall a, Scrape2.keeps_disk env (k a)) ->
  Scrape2.keeps_disk env (seq c k).
Proof.
  intros Hc Hk w. unfold seq. specialize (Hc w).
  destruct (c w) as [[a|r] w1]; cbn [snd] in *; [|assumption].
  now rewrite Hk.
Qed.

Lemma try_keeps_disk {A : Type} (c : io (Scrape2.world env) A)
    (h : raised -> io (Scrape2.world env) A) :
  Scrape2.keeps_disk env c ->
  (forall r, Scrape2.keeps_disk env (h r)) ->
  Scrape2.keeps_disk env (try_except c h).
Proof.
  intros Hc Hh w. unfold try_except. specialize (Hc w).
  destruct (c w) as [[a|r] w1]; cbn [snd] in *; [assumption|].
  now rewrite Hh.
Qed.

Lemma seq_quiet {A B : Type} (c : io (Scrape2.world env) A)
    (k : A -> io (Scrape2.world env) B) :
  Scrape2.is_quiet env c ->
  (forall a, Scrape2.is_quiet env (k a)) ->
  Scrape2.is_quiet env (seq c k).
Proof.
  intros Hc Hk w. unfold seq. specialize (Hc w).
  destruct (c w) as [[a|r] w1]; cbn [snd] in *; [|assumption].
  eapply quiet_trans; [exact Hc|apply Hk].
Qed.

Lemma ret_quiet {A : Type} (a : A) :
  Scrape2.is_quiet env (@ret (Scrape2.world env) A a).
Proof. intros w. apply quiet_refl. Qed.

Lemma print_is_quiet (p : printed) : Scrape2.is_quiet env (Scrape2.print env p).
Proof. intros w. repeat split. Qed.

Lemma look_is_quiet {A : Type} (c : Scrape2.call (Scrape2.element env))
    (op : Scrape2.browser env -> outcome A) :
  (forall e, c <> Scrape2.Click e) -> Scrape2.is_quiet env (Scrape2.look env c op).
Proof. intros Hc w. now apply look_quiet. Qed.

Lemma act_keeps_disk (c : Scrape2.call (Scrape2.element env))
    (op : Scrape2.browser env -> outcome unit * Scrape2.browser env) :
  Scrape2.keeps_disk env (Scrape2.act env c op).
Proof.
  intros w. unfold Scrape2.act. now destruct (op (Scrape2.page env w)).
Qed.

Lemma act_calls (c : Scrape2.call (Scrape2.element env))
    (op : Scrape2.browser env -> outcome unit * Scrape2.browser env)
    (w : Scrape2.world env) :
  Scrape2.calls env (snd (Scrape2.act env c op w))
  = (Scrape2.calls env w ++ [c])%list
  /\ Scrape2.page env (snd (Scrape2.act env c op w))
     = snd (op (Scrape2.page env w))
  /\ fst (Scrape2.act env c op w) = fst (op (Scrape2.page env w)).
Proof.
  unfold Scrape2.act. now destruct (op (Scrape2.page env w)).
Qed.

(** [extract_espn_data] returns whatever the browser does. *)
Lemma extract_returns (selector : string) (w : Scrape2.world env) :
  exists es, fst (Scrape2.extract_espn_data env selector w) = Got es.
Proof.
  unfold Scrape2.extract_espn_data.
  destruct (Scrape2.look env _ _ w) as [[rows|r] w1]; [|cbn; eauto].
  destruct (Scrape2.for_rows env rows [] w1) as [[pbp [u|r]] w2]; cbn; eauto.
Qed.

Lemma extract_is_quiet (selector : string) :
  Scrape2.is_quiet env (Scrape2.extract_espn_data env selector).
Proof.
  intros w. unfold Scrape2.extract_espn_data.
  destruct (look_quiet (Scrape2.FindElements (selector ++ " > tr"))
              (Scrape2.find_elements env (selector ++ " > tr")) w
              ltac:(discriminate)) as (_ & Hq & _).
  destruct (Scrape2.look env _ _ w) as [[rows|r] w1]; cbn [snd] in Hq.
  - destruct (for_rows_spec rows [] w1) as (_ & _ & _ & _ & _ & _ & Hq1 & _).
    destruct (Scrape2.for_rows env rows [] w1) as [[pbp [u|r]] w2];
      cbn [snd] in Hq1.
    + cbn [snd]. eapply quiet_trans; eassumption.
    + eapply quiet_trans; [exact Hq|].
      eapply quiet_trans; [exact Hq1|]. repeat split.
  - eapply quiet_trans; [exact Hq|]. repeat split.
Qed.

Lemma labelled_is_quiet (tabs : list (Scrape2.element env)) :
  Scrape2.is_quiet env (Scrape2.labelled env tabs).
Proof.
  induction tabs as [|tab tabs IH]; cbn [Scrape2.labelled].
  - apply ret_quiet.
  - apply seq_quiet; [apply look_is_quiet; discriminate|]. intros label.
    apply seq_quiet; [exact IH|]. intros kept. apply ret_quiet.
Qed.

(** The list comprehension keeps the tabs with a quarter label. *)
Lemma labelled_spec (tabs : list (Scrape2.element env)) :
  forall w kept w',
    Scrape2.labelled env tabs w = (Got kept, w') ->
    kept = filter (Scrape2.is_quarter_tab env (Scrape2.page env w)) tabs.
Proof.
  induction tabs as [|tab tabs IH]; intros w kept w'; cbn [Scrape2.labelled].
  - unfold ret. intros H; inversion H; reflexivity.
  - intros H. apply seq_got in H as (label & w1 & Hl & H).
    apply seq_got in H as (kept' & w2 & Hk & H).
    unfold ret in H. inversion H; subst; clear H.
    pose proof (look_quiet (Scrape2.Text tab) (Scrape2.text env tab) w
                  ltac:(discriminate)) as (Hf & (Hp & _) & _).
    rewrite Hl in Hf, Hp. cbn [fst snd] in Hf, Hp.
    rewrite (IH w1 kept' _ Hk), Hp. cbn [filter].
    assert (Scrape2.is_quarter_tab env (Scrape2.page env w) tab
            = Py.mem label Scrape2.quarter_labels) as ->
        by (unfold Scrape2.is_quarter_tab; now rewrite <- Hf).
    reflexivity.
Qed.

Lemma for_tabs_keeps_disk (tabs : list (Scrape2.element env)) :
  forall acc, Scrape2.keeps_disk env (Scrape2.for_tabs env tabs acc).
Proof.
  induction tabs as [|tab tabs IH]; intros acc; cbn [Scrape2.for_tabs].
  - intros w. reflexivity.
  - apply seq_keeps_disk; [apply act_keeps_disk|]. intros _.
    apply seq_keeps_disk; [apply act_keeps_disk|]. intros _.
    apply seq_keeps_disk;
      [apply quiet_keeps_disk, extract_is_quiet|]. intros data.
    apply IH.
Qed.

(** The tab loop clicks its tabs, each once, in order. *)
Lemma for_tabs_clicks (tabs : list (Scrape2.element env)) :
  forall acc w data w',
    Scrape2.for_tabs env tabs acc w = (Got data, w') ->
    Scrape2.clicked env (Scrape2.calls env w')
    = (Scrape2.clicked env (Scrape2.calls env w) ++ tabs)%list.
Proof.
  induction tabs as [|tab tabs IH]; intros acc w data w';
    cbn [Scrape2.for_tabs].
  - unfold ret. intros H; inversion H; subst. now rewrite app_nil_r.
  - intros H. apply seq_got in H as ([] & w1 & Hc & H).
    apply seq_got in H as ([] & w2 & Hs & H).
    apply seq_got in H as (qd & w3 & He & H).
    rewrite (IH _ _ _ _ H).
    pose proof (extract_is_quiet Scrape2.table_selector w2) as (_ & _ & Hq).
    rewrite He in Hq. cbn [snd] in Hq. rewrite Hq.
    pose proof (act_calls Scrape2.Sleep
                  (fun b => (Got tt, Scrape2.sleep env b)) w1) as (H2 & _).
    rewrite Hs in H2. cbn [snd] in H2. rewrite H2.
    pose proof (act_calls (Scrape2.Click tab) (Scrape2.click env tab) w)
      as (H1 & _).
    rewrite Hc in H1. cbn [snd] in H1. rewrite H1.
    rewrite !clicked_app. cbn [Scrape2.clicked].
    now rewrite app_nil_r, <- app_assoc.
Qed.

Lemma act_got (c : Scrape2.call (Scrape2.element env))
    (op : Scrape2.browser env -> outcome unit * Scrape2.browser env)
    (w w' : Scrape2.world env) (u : unit) :
  Scrape2.act env c op w = (Got u, w') ->
  op (Scrape2.page env w) = (Got u, Scrape2.page env w')
  /\ Scrape2.calls env w' = (Scrape2.calls env w ++ [c])%list.
Proof.
  unfold Scrape2.act. destruct (op (Scrape2.page env w)) as [r b].
  intros H; inversion H; subst. auto.
Qed.

Lemma fetch_keeps_disk (url : string) :
  Scrape2.keeps_disk env (Scrape2.fetch_page_with_selenium env url).
Proof.
  apply seq_keeps_disk; [apply act_keeps_disk|]. intros _.
  apply try_keeps_disk.
  - repeat (apply seq_keeps_disk; [|intros ?]);
      try apply act_keeps_disk;
      try (apply quiet_keeps_disk, extract_is_quiet);
      try (apply quiet_keeps_disk, look_is_quiet; discriminate);
      try (apply quiet_keeps_disk, labelled_is_quiet);
      try apply for_tabs_keeps_disk.
    intros w0. reflexivity.
  - intros r.
    repeat (apply seq_keeps_disk; [|intros ?]);
      try apply act_keeps_disk;
      try (apply quiet_keeps_disk, print_is_quiet).
    intros w0. reflexivity.
Qed.

Lemma concat_chunks (data : list string) :
  String.concat "" (map (fun entry => entry ++ newline) data) = written data.
Proof.
  induction data as [|e data IH]; [reflexivity|].
  destruct data as [|x data].
  - cbn. now rewrite sapp_nil_r.
  - change (String.concat "" (map (fun entry => entry ++ newline)
                                (e :: x :: data)))
      with ((e ++ newline) ++ ""
            ++ String.concat "" (map (fun entry => entry ++ newline)
                                   (x :: data))).
    rewrite IH. reflexivity.
Qed.

(** X11: the browser session is closed on every way out. Once Chrome has
    started, whatever the site and Selenium do afterwards and whether
    [fetch_page_with_selenium] returns the entries, returns [None] or
    raises, the last call it makes to Selenium is [quit]; and it never
    touches the disk. *)
Theorem X11_quit_is_the_last_call (url : string) (w : Scrape2.world env)
    (b0 : Scrape2.browser env) :
  Scrape2.chrome env (Scrape2.page env w) = (Got tt, b0) ->
  (exists cs,
      Scrape2.calls env (snd (Scrape2.fetch_page_with_selenium env url w))
      = (cs ++ [Scrape2.Quit])%list)
  /\ Scrape2.disk env (snd (Scrape2.fetch_page_with_selenium env url w))
     = Scrape2.disk env w.
Proof.
  intros Hchrome. split.
  - unfold Scrape2.fetch_page_with_selenium. unfold seq at 1.
    pose proof (act_calls Scrape2.Chrome (Scrape2.chrome env) w)
      as (_ & _ & Hf).
    rewrite Hchrome in Hf.
    destruct (Scrape2.act env Scrape2.Chrome (Scrape2.chrome env) w)
      as [[u|r] w1]; cbn [fst] in Hf; [|discriminate].
    unfold try_except.
    match goal with
    | |- context [match ?body w1 with _ => _ end] =>
        destruct (body w1) as [[res|r] w2] eqn:Hbody
    end.
    + apply seq_got in Hbody as ([] & w3 & _ & Hbody).
      apply seq_got in Hbody as ([] & w4 & _ & Hbody).
      apply seq_got in Hbody as (fq & w5 & _ & Hbody).
      apply seq_got in Hbody as (tabs & w6 & _ & Hbody).
      apply seq_got in Hbody as (kept & w7 & _ & Hbody).
      apply seq_got in Hbody as (data & w8 & _ & Hbody).
      apply seq_got in Hbody as ([] & w9 & Hquit & Hbody).
      unfold ret in Hbody. inversion Hbody; subst.
      apply act_got in Hquit as (_ & Hcalls).
      cbn [snd]. eauto.
    + unfold seq.
      pose proof (act_calls Scrape2.Quit (Scrape2.quit env) w2)
        as (Hcalls & _).
      destruct (Scrape2.act env Scrape2.Quit (Scrape2.quit env) w2)
        as [[[]|r'] w3]; cbn [snd] in *; eauto.
  - apply fetch_keeps_disk.
Qed.

(** The handler of [fetch_page_with_selenium] returns no entries. *)
Lemma fetch_handler_none (r : raised) (w w' : Scrape2.world env)
    (data : list string) :
  (Scrape2.act env Scrape2.Quit (Scrape2.quit env) ;;;
   Scrape2.print env (SayError Scrape2.fetch_error r) ;;;
   ret None) w <> (Got (Some data), w').
Proof.
  unfold seq, ret.
  destruct (Scrape2.act env Scrape2.Quit (Scrape2.quit env) w)
    as [[[]|r'] w1]; cbn; discriminate.
Qed.

(** X12: which tabs are clicked. When [fetch_page_with_selenium] returns
    entries, Chrome was started, the page loaded and the table awaited
    without an exception; of the buttons found on the page then, those
    whose text is 1st, 2nd, 3rd or 4th were kept, and the clicks of the
    run are the kept tabs but the first, each once and in their order. The
    first kept tab, whatever its label, and every tab labelled otherwise,
    an overtime tab for one, is never clicked. *)
Theorem X12_tabs_clicked (url : string) (w w' : Scrape2.world env)
    (data : list string) :
  Scrape2.fetch_page_with_selenium env url w = (Got (Some data), w') ->
  exists b0 b1 b2 tabs,
    Scrape2.chrome env (Scrape2.page env w) = (Got tt, b0)
    /\ Scrape2.get env url b0 = (Got tt, b1)
    /\ Scrape2.wait_presence env Scrape2.table_selector b1 = (Got tt, b2)
    /\ Scrape2.find_elements env "nav ul li button" b2 = Got tabs
    /\ Scrape2.clicked env (Scrape2.calls env w')
       = (Scrape2.clicked env (Scrape2.calls env w)
          ++ tl (filter (Scrape2.is_quarter_tab env b2) tabs))%list.
Proof.
  unfold Scrape2.fetch_page_with_selenium. intros H.
  apply seq_got in H as ([] & w1 & Hchrome & H).
  unfold try_except in H.
  match type of H with
  | context [match ?body w1 with _ => _ end] =>
      destruct (body w1) as [[res|r] w2] eqn:Hbody
  end; [|now apply fetch_handler_none in H].
  inversion H; subst res w2; clear H.
  apply seq_got in Hbody as ([] & w3 & Hget & Hbody).
  apply seq_got in Hbody as ([] & w4 & Hwait & Hbody).
  apply seq_got in Hbody as (fq & w5 & Hex & Hbody).
  apply seq_got in Hbody as (tabs & w6 & Hfind & Hbody).
  apply seq_got in Hbody as (kept & w7 & Hlab & Hbody).
  apply seq_got in Hbody as (all & w8 & Htabs & Hbody).
  apply seq_got in Hbody as ([] & w9 & Hquit & Hbody).
  unfold ret in Hbody. inversion Hbody; subst all w9; clear Hbody.
  apply act_got in Hchrome as (Hchrome & C1).
  apply act_got in Hget as (Hget & C3).
  apply act_got in Hwait as (Hwait & C4).
  apply act_got in Hquit as (_ & C9).
  pose proof (extract_is_quiet Scrape2.table_selector w4) as (P5 & _ & C5).
  rewrite Hex in P5, C5. cbn [snd] in P5, C5.
  pose proof (look_quiet (Scrape2.FindElements "nav ul li button")
                (Scrape2.find_elements env "nav ul li button") w5
                ltac:(discriminate)) as (F6 & (P6 & _ & C6) & _).
  rewrite Hfind in F6, P6, C6. cbn [fst snd] in F6, P6, C6.
  pose proof (labelled_is_quiet tabs w6) as (P7 & _ & C7).
  rewrite Hlab in P7, C7. cbn [snd] in P7, C7.
  apply labelled_spec in Hlab. apply for_tabs_clicks in Htabs.
  exists (Scrape2.page env w1), (Scrape2.page env w3), (Scrape2.page env w4),
    tabs.
  split; [exact Hchrome|]. split; [exact Hget|]. split; [exact Hwait|].
  split; [congruence|].
  rewrite C9, clicked_app, Htabs, C7, C6, C5, C4, C3, C1, !clicked_app.
  cbn [Scrape2.clicked]. rewrite !app_nil_r.
  subst kept. now rewrite P6, P5.
Qed.

(** X13: an empty scrape counts as a failure. When the fetch returns, the
    script [main] of scrape2.py ends normally, and it writes the file
    play_by_play.txt exactly when the fetch returned at least one entry:
    then the disk gets the entries, each followed by a newline, in one
    file whose text is [written] of the entries; when the fetch returned
    [None] or an empty list the disk stays as it was and the last thing
    printed is that the fetch failed. *)
Theorem X13_main_writes_nonempty_scrapes (w w1 : Scrape2.world env)
    (res : option (list string)) :
  Scrape2.fetch_page_with_selenium env Scrape2.espn_url
    (snd (Scrape2.print env (Say "Fetching play-by-play data...") w))
  = (Got res, w1) ->
  fst (Scrape2.main env w) = Got tt
  /\ match res with
     | Some (e :: es) =>
         Scrape2.disk env (snd (Scrape2.main env w))
         = snd (Scrape2.write_file env "play_by_play.txt"
                  (map (fun entry => entry ++ newline) (e :: es))
                  (Scrape2.disk env w))
         /\ String.concat "" (map (fun entry => entry ++ newline) (e :: es))
            = written (e :: es)
     | _ =>
         Scrape2.main env w
         = (Got tt,
            Scrape2.mkWorld env (Scrape2.page env w1) (Scrape2.calls env w1)
              (Scrape2.out env w1
               ++ [Say "Failed to fetch play-by-play data."])
              (Scrape2.disk env w))
     end.
Proof.
  intros Hfetch.
  pose proof (fetch_keeps_disk Scrape2.espn_url
                (snd (Scrape2.print env
                        (Say "Fetching play-by-play data...") w))) as Hdisk.
  rewrite Hfetch in Hdisk. cbn [snd] in Hdisk.
  rewrite print_quiet in Hfetch, Hdisk.
  cbn [snd Scrape2.disk] in Hfetch, Hdisk.
  unfold Scrape2.main, seq.
  rewrite print_quiet, Hfetch.
  destruct res as [[|e es]|]; cbv beta iota.
  - split; [reflexivity|]. rewrite print_quiet. now rewrite Hdisk.
  - unfold Scrape2.save_to_file, try_except, seq, Scrape2.write.
    rewrite !print_quiet.
    cbn [Scrape2.page Scrape2.calls Scrape2.out Scrape2.disk].
    change Scrape2.output_file with "play_by_play.txt".
    rewrite Hdisk.
    destruct (Scrape2.write_file env "play_by_play.txt"
                (map (fun entry => entry ++ newline) (e :: es))
                (Scrape2.disk env w)) as [[[]|r] d];
      rewrite ?print_quiet; cbn [fst snd Scrape2.disk];
      (split; [reflexivity|split; [reflexivity|apply concat_chunks]]).
  - split; [reflexivity|]. rewrite print_quiet. now rewrite Hdisk.
Qed.

End Scraper.

(** *** The sample site *)

Lemma sample_fetch :
  Scrape2.fetch_page_with_selenium sample_env Scrape2.espn_url sample_start
  = sample_fetched.
Proof. vm_compute. reflexivity. Qed.

Lemma sample_fetch_in_main :
  Scrape2.fetch_page_with_selenium sample_env Scrape2.espn_url
    (snd (Scrape2.print sample_env
            (Script.Say "Fetching play-by-play data...") sample_start))
  = sample_fetched_in_main.
Proof. vm_compute. reflexivity. Qed.

Lemma sample_extract :
  Scrape2.extract_espn_data sample_env Scrape2.table_selector
    sample_second_quarter
  = sample_extracted.
Proof. vm_compute. reflexivity. Qed.

Lemma sample_rows :
  Scrape2.find_elements sample_env (Scrape2.table_selector ++ " > tr")
    (Scrape2.page sample_env sample_second_quarter)
  = Script.Got [21; 22; 23]%nat.
Proof. vm_compute. reflexivity. Qed.

(** X10, on the second quarter of the sample site: the time cell of the
    second row cannot be read, and the third row is lost with it. *)
Lemma X10_extract_stops_at_first_bad_row_witness :
  exists w',
    Scrape2.extract_espn_data sample_env Scrape2.table_selector
      sample_second_quarter
    = (Script.Got ["12:00 - Start of the 2nd Quarter"], w')
    /\ Scrape2.out sample_env w'
       = [Script.SayError Scrape2.extraction_error
            (Script.Ext "stale element reference")].
Proof.
  destruct (X10_extract_stops_at_first_bad_row sample_env
              Scrape2.table_selector sample_second_quarter [21; 22; 23]%nat
              sample_rows)
    as (good & rest & es & w' & _ & _ & Hex & _).
  pose proof Hex as Hex0.
  rewrite sample_extract in Hex. inversion Hex; subst es w'; clear Hex.
  eexists. split; [exact Hex0|reflexivity].
Defined.

(** X11, on the sample site. *)
Lemma X11_quit_is_the_last_call_witness :
  exists cs,
    Scrape2.calls sample_env
      (snd (Scrape2.fetch_page_with_selenium sample_env Scrape2.espn_url
              sample_start))
    = (cs ++ [Scrape2.Quit])%list.
Proof.
  exact (proj1 (X11_quit_is_the_last_call sample_env Scrape2.espn_url
                  sample_start 0%nat eq_refl)).
Defined.

(** X12, on the sample site: of the tabs 1st, 2nd and OT the second alone
    is clicked. *)
Lemma X12_tabs_clicked_witness :
  exists data,
    fst sample_fetched = Script.Got (Some data)
    /\ Scrape2.clicked sample_env
         (Scrape2.calls sample_env (snd sample_fetched))
       = [102%nat].
Proof.
  eexists. split; [reflexivity|].
  destruct (X12_tabs_clicked sample_env Scrape2.espn_url sample_start
              (snd sample_fetched) _ sample_fetch)
    as (b0 & b1 & b2 & tabs & _ & _ & _ & Htabs & ->).
  vm_compute in Htabs. inversion Htabs; subst tabs. vm_compute. reflexivity.
Defined.

(** X13, on the sample site: three entries reach the disk. *)
Lemma X13_main_writes_nonempty_scrapes_witness :
  fst (Scrape2.main sample_env sample_start) = Script.Got tt
  /\ Scrape2.disk sample_env (snd (Scrape2.main sample_env sample_start))
     = [("play_by_play.txt",
         ["12:00 - Tip-off" ++ newline;
          "11:40 - Jayson Tatum makes 2-pt shot" ++ newline;
          "12:00 - Start of the 2nd Quarter" ++ newline])].
Proof.
  destruct (X13_main_writes_nonempty_scrapes sample_env sample_start
              (snd sample_fetched_in_main) _ sample_fetch_in_main)
    as (H1 & H2 & _).
  split; [exact H1|exact H2].
Defined.

(** ** The clock of a scraped entry *)

Lemma digit_facts (a : ascii) :
  In a digits ->
  Py.is_digit a = true /\ Ascii.eqb a ":" = false /\ Ascii.eqb a "." = false.
Proof.
  intros H. cbv [digits In] in H.
  repeat (destruct H as [<-|H]; [repeat split|]). destruct H.
Qed.

(** A clock text at the head of a line is the match of the time pattern,
    whatever follows it. *)
Lemma time_at_head (tok rest : string) :
  In tok tokens -> Re.time_at (tok ++ rest) = Some tok.
Proof.
  unfold tokens. remember digits as ds eqn:Hds.
  assert (forall a, In a ds -> In a digits) as Hin by (subst; auto).
  clear Hds. intros H.
  repeat (apply in_app_or in H as [H|H]);
    repeat match type of H with
      | In _ (flat_map _ _) =>
          apply in_flat_map in H as (? & ?%Hin%digit_facts & H)
      | In _ (map _ _) =>
          apply in_map_iff in H as (? & <- & ?%Hin%digit_facts)
      end;
    repeat match goal with
      | H : _ /\ _ |- _ => destruct H
      end;
    cbn [String.append];
    unfold Re.time_at, Re.mm_ss, Re.ss_s, Re.lead, Re.eat_digit, Re.eat_char;
    repeat (progress
              (change (Py.is_digit ":") with false;
               change (Py.is_digit ".") with false;
               change (Ascii.eqb ":" ":") with true;
               change (Ascii.eqb "." ".") with true;
               change (Ascii.eqb "." ":") with false;
               change (Ascii.eqb ":" ".") with false;
               repeat match goal with
                 | E : _ = true |- _ => rewrite E
                 | E : _ = false |- _ => rewrite E
                 end;
               cbn [Re.obind Re.orelse String.append]));
    reflexivity.
Qed.

Lemma search_time_unfold (s : string) :
  Re.search_time s
  = match Re.time_at s with
    | Some t => Some t
    | None =>
        match s with
        | EmptyString => None
        | String _ r => Re.search_time r
        end
    end.
Proof. destruct s; reflexivity. Qed.

Lemma mem_in (x : string) (l : list string) : Py.mem x l = true -> In x l.
Proof.
  unfold Py.mem. intros H. apply existsb_exists in H as (y & Hin & E).
  apply String.eqb_eq in E. now subst.
Qed.

Lemma tokens_value :
  forallb
    (fun tok =>
       match convert_to_mm_ss_format tok with
       | Ok t => secs_of t =? clock_value tok
       | Raise _ => false
       end)
    tokens = true.
Proof. vm_compute. reflexivity. Qed.

(** X14: the clock of an entry is the clock of its time cell. When the time
    cell of a row reads as a clock, [m:ss] or [mm:ss] or the bare decimals
    [s.d] or [ss.d], the time the segmenter finds in the entry made of the
    row is that very text, whatever digits, colons and dots the description
    holds; and the clock it takes from it is [60 m + ss] seconds, be [ss]
    above 59, or the whole seconds of the decimal. *)
Theorem X14_entry_clock (time_cell text_cell : string) :
  Py.mem time_cell tokens = true ->
  Re.search_time (entry time_cell text_cell) = Some time_cell
  /\ reading (entry time_cell text_cell) = Some (clock_value time_cell).
Proof.
  intros H. apply mem_in in H.
  assert (Re.search_time (entry time_cell text_cell) = Some time_cell) as Hs.
  { unfold entry. rewrite search_time_unfold.
    now rewrite (time_at_head time_cell _ H). }
  split; [exact Hs|]. unfold reading. rewrite Hs.
  pose proof tokens_value as Hv. rewrite forallb_forall in Hv.
  specialize (Hv time_cell H).
  destruct (convert_to_mm_ss_format time_cell); [|discriminate].
  apply Z.eqb_eq in Hv. now rewrite Hv.
Qed.

(** X14, on an entry whose description holds a clock of its own. *)
Lemma X14_entry_clock_witness :
  reading (entry "9:15" "Official timeout, 2:00 warning (102-99)")
  = Some 555.
Proof.
  exact (proj2 (X14_entry_clock "9:15"
                  "Official timeout, 2:00 warning (102-99)"
                  ltac:(vm_compute; reflexivity))).
Defined.
